(** * GCP logging-sink writer-identity audit: model and verification

    The repository holds two Python scripts,
    [gcp-au-writer-audit.py] and [gcp-au-writer-audit-cloudshell.py].
    Both resolve a logging sink to its writer identity and destination,
    fetch the IAM policy of the destination resource and list the role
    bindings that contain the writer identity.

    The development embeds the scripts shallowly: Python values become Rocq
    data, raising an exception becomes the [Raise] branch of a result type,
    calls to the Google client libraries become events appended to a trace
    and answered by a [World] of oracles. *)

From Stdlib Require Import List String Ascii Bool Arith ZArith Lia.
Import ListNotations.

Local Open Scope list_scope.
Local Open Scope string_scope.

(** ** Python runtime: exceptions and results *)

(** The exception classes the two scripts can meet.  [SystemExit],
    [KeyboardInterrupt] and [GeneratorExit] derive from [BaseException]
    only, so an [except Exception] clause lets them through; all the others
    derive from [Exception]. *)
Inductive exn : Type :=
| NotFound (msg : string)        (* google.api_core.exceptions.NotFound *)
| ValueError (msg : string)
| IndexError (msg : string)
| AttributeError (msg : string)
| TypeError (msg : string)
| NameError (name : string)
| OtherError (msg : string)      (* any other Exception of a collaborator *)
| SystemExit (msg : string)      (* sys.exit(msg) *)
| KeyboardInterrupt              (* the user's interrupt, inside any call *)
| GeneratorExit.

Inductive result (A : Type) : Type :=
| Ok (a : A)
| Raise (e : exn).

Arguments Ok {A} a.
Arguments Raise {A} e.

(** [str(e)] *)
Definition exn_str (e : exn) : string :=
  match e with
  | NotFound m | ValueError m | IndexError m | AttributeError m
  | TypeError m | OtherError m | SystemExit m => m
  | NameError n => "name '" ++ n ++ "' is not defined"
  | KeyboardInterrupt | GeneratorExit => EmptyString
  end.

(** [isinstance(e, ValueError)] and [isinstance(e, Exception)] *)
Definition is_ValueError (e : exn) : bool :=
  match e with ValueError _ => true | _ => false end.

Definition is_Exception (e : exn) : bool :=
  match e with
  | SystemExit _ | KeyboardInterrupt | GeneratorExit => false
  | _ => true
  end.

Definition is_NotFound (e : exn) : bool :=
  match e with NotFound _ => true | _ => false end.

Definition rbind {A B} (r : result A) (k : A -> result B) : result B :=
  match r with
  | Ok a => k a
  | Raise e => Raise e
  end.

Declare Scope result_scope.
Delimit Scope result_scope with result.
Notation "x <- r ;; k" := (rbind r (fun x => k))
  (at level 61, r at next level, right associativity) : result_scope.

(** ** Python runtime: strings and lists *)

(** The character "/" and the line feed used by the report. *)
Definition slash : ascii := "/"%char.
Definition nl : string := String "010"%char EmptyString.

(** [s.split(sep)] for a one-character separator: the segments between the
    occurrences of [sep], never an empty list. *)
Fixpoint split (sep : ascii) (s : string) : list string :=
  match s with
  | EmptyString => [EmptyString]
  | String c s' =>
      if Ascii.eqb c sep then EmptyString :: split sep s'
      else match split sep s' with
           | [] => [String c EmptyString]
           | seg :: segs => String c seg :: segs
           end
  end.

(** [c in s] for a character. *)
Fixpoint has_char (c : ascii) (s : string) : bool :=
  match s with
  | EmptyString => false
  | String c' s' => Ascii.eqb c' c || has_char c s'
  end.

(** A segment free of the separator. *)
Definition sep_free (sep : ascii) (s : string) : Prop := has_char sep s = false.

(** [s.startswith(p)] *)
Definition startswith (s p : string) : bool := String.prefix p s.

(** [l[i]], with Python's negative indices and its [IndexError]. *)
Definition getitem {A} (l : list A) (i : Z) : result A :=
  let n := Z.of_nat (List.length l) in
  let j := if (i <? 0)%Z then (i + n)%Z else i in
  if (j <? 0)%Z || (n <=? j)%Z then Raise (IndexError "list index out of range")
  else match nth_error l (Z.to_nat j) with
       | Some a => Ok a
       | None => Raise (IndexError "list index out of range")
       end.

(** [x in members] for a sequence of strings. *)
Definition contains (x : string) (members : list string) : bool :=
  existsb (String.eqb x) members.

(** [a or b] where [a] is an optional string: [None] and the empty
    string are falsy. *)
Definition py_or (a : option string) (b : string) : string :=
  match a with
  | None => b
  | Some EmptyString => b
  | Some s => s
  end.

(** ** Python runtime: dicts

    A dict keeps its keys unique and iterates in insertion order, so it is an
    association list; [dict_set] is [d[k] = v] and a dict display
    [{k1: v1, k2: v2}] is the fold of [dict_set] over its pairs. *)
Definition dict (V : Type) : Type := list (string * V).

Fixpoint dict_get {V} (d : dict V) (k : string) : option V :=
  match d with
  | [] => None
  | (k', v) :: d' => if String.eqb k' k then Some v else dict_get d' k
  end.

Fixpoint dict_set {V} (d : dict V) (k : string) (v : V) : dict V :=
  match d with
  | [] => [(k, v)]
  | (k', v') :: d' =>
      if String.eqb k' k then (k', v) :: d' else (k', v') :: dict_set d' k v
  end.

Definition dict_display {V} (kvs : list (string * V)) : dict V :=
  fold_left (fun d kv => dict_set d (fst kv) (snd kv)) kvs [].

Definition dict_keys {V} (d : dict V) : list string := map fst d.

Definition dict_items {V} (d : dict V) : list (string * V) := d.

(** The invariant of every dict: no key twice. *)
Definition dict_wf {V} (d : dict V) : Prop := NoDup (dict_keys d).

(** ** Python values handed to the auditor

    A policy is a plain dict from role to members, or an object with
    attributes, one of which may be [bindings], or both at once: a mapping
    from role to members that also has attributes, as a policy class that
    implements the mapping protocol has. *)
#[warnings="-register-all"]
Inductive pyval : Type :=
| PyDict (items : dict (list string))
| PyObject (attrs : list (string * pyval))
| PyMapping (items : dict (list string)) (attrs : list (string * pyval)).

Fixpoint attr_lookup (attrs : list (string * pyval)) (name : string)
  : option pyval :=
  match attrs with
  | [] => None
  | (n, v) :: rest => if String.eqb n name then Some v else attr_lookup rest name
  end.

(** [getattr(o, name, default)]: a dict instance has none of the attributes
    the scripts ask for, an object has the ones it lists, mapping or not. *)
Definition getattr_default (o : pyval) (name : string) (default : pyval) : pyval :=
  match o with
  | PyDict _ => default
  | PyObject attrs | PyMapping _ attrs =>
      match attr_lookup attrs name with
      | Some v => v
      | None => default
      end
  end.

(** [hasattr(o, name)] *)
Definition hasattr (o : pyval) (name : string) : bool :=
  match o with
  | PyDict _ => false
  | PyObject attrs | PyMapping _ attrs =>
      match attr_lookup attrs name with
      | Some _ => true
      | None => false
      end
  end.

(** [o.name] *)
Definition getattr (o : pyval) (name : string) : result pyval :=
  match o with
  | PyDict _ =>
      Raise (AttributeError ("'dict' object has no attribute '" ++ name ++ "'"))
  | PyObject attrs | PyMapping _ attrs =>
      match attr_lookup attrs name with
      | Some v => Ok v
      | None =>
          Raise (AttributeError ("object has no attribute '" ++ name ++ "'"))
      end
  end.

(** [o.items()] *)
Definition items (o : pyval) : result (list (string * list string)) :=
  match o with
  | PyDict d | PyMapping d _ => Ok (dict_items d)
  | PyObject _ => Raise (AttributeError "object has no attribute 'items'")
  end.

(** ** Collaborators, events and the program monad

    Every request to a Google client library is recorded as an event and
    answered by the [World].  Building a client object sends no request.
    The logging client is the first client a run builds, from the ambient
    credentials, and building it can raise before anything is sent.  For
    a policy retrieval the event records the call of the client library,
    and the answer of the [World] stands for the whole of it: the client
    built and the policy requested, either of which can raise. *)
Record World : Type := {
  (* os.getenv(name) *)
  getenv : string -> option string;
  (* logging client: Client(project=project_id) raises or gives a client,
     and the client is what client.sink(sink_name).reload() answers for
     each sink: an exception, or the sink's writer_identity and
     destination *)
  logging_client : string -> result (string -> result (string * string));
  (* storage.Client() and client.bucket(bucket_name).get_iam_policy() *)
  bucket_get_iam_policy : string -> result pyval;
  (* bigquery.Client() and client.get_iam_policy(dataset_id) *)
  dataset_get_iam_policy : string -> result pyval;
  (* pubsub_v1.PublisherClient() and client.get_iam_policy of
     client.topic_path(project_id, topic_name) *)
  topic_get_iam_policy : string -> string -> result pyval;
  (* repr of a members sequence, as an f-string renders it *)
  repr_members : list string -> string
}.

(** The logging client built and the sink reloaded: the outcome of the
    three collaborator lines of [get_writer_identity]. *)
Definition sink_reload (W : World) (sink_name project_id : string)
  : result (string * string) :=
  (client <- logging_client W project_id ;; client sink_name)%result.

Inductive event : Type :=
| SinkReload (sink_name project_id : string)
| BucketGetIamPolicy (bucket_name : string)
| DatasetGetIamPolicy (dataset_id : string)
| TopicGetIamPolicy (project_id topic_name : string)
| Print (line : string).

Definition trace : Type := list event.

(** The policy requests among the events. *)
Definition is_policy_fetch (ev : event) : bool :=
  match ev with
  | BucketGetIamPolicy _ | DatasetGetIamPolicy _ | TopicGetIamPolicy _ _ => true
  | SinkReload _ _ | Print _ => false
  end.

Definition is_request (ev : event) : bool :=
  match ev with
  | Print _ => false
  | _ => true
  end.

Definition policy_fetches (t : trace) : list event := filter is_policy_fetch t.

Definition requests (t : trace) : list event := filter is_request t.

(** A computation extends the trace and returns or raises. *)
Definition IO (A : Type) : Type := trace -> result A * trace.

Definition ret {A} (a : A) : IO A := fun t => (Ok a, t).

Definition bind {A B} (m : IO A) (k : A -> IO B) : IO B :=
  fun t =>
    match m t with
    | (Ok a, t') => k a t'
    | (Raise e, t') => (Raise e, t')
    end.

Definition raise {A} (e : exn) : IO A := fun t => (Raise e, t).

Definition lift {A} (r : result A) : IO A := fun t => (r, t).

Definition emit (ev : event) : IO unit := fun t => (Ok tt, (t ++ [ev])%list).

(** [try: m  except ...: h e]; the handler re-raises what no clause takes. *)
Definition try_except {A} (m : IO A) (h : exn -> IO A) : IO A :=
  fun t =>
    match m t with
    | (Ok a, t') => (Ok a, t')
    | (Raise e, t') => h e t'
    end.

Declare Scope io_scope.
Delimit Scope io_scope with io.
Notation "x <- m ;; k" := (bind m (fun x => k))
  (at level 61, m at next level, right associativity) : io_scope.
Notation "m ;;; k" := (bind m (fun _ => k))
  (at level 61, right associativity) : io_scope.

Definition print (line : string) : IO unit := emit (Print line).

(** [sys.exit(msg)] *)
Definition sys_exit {A} (msg : string) : IO A := raise (SystemExit msg).

(** [for x in xs: body x] *)
Fixpoint for_each {A} (xs : list A) (body : A -> IO unit) : IO unit :=
  match xs with
  | [] => ret tt
  | x :: xs' => (body x ;;; for_each xs' body)%io
  end.

(** Running a script from an empty trace, and the status the interpreter
    exits with: 0 when [main] returns, 1 when it ends in [sys.exit] with a
    message or in an exception nobody caught, the interrupt's 130 when that
    exception is [KeyboardInterrupt]. *)
Definition run {A} (m : IO A) : result A * trace := m [].

Definition exit_status {A} (r : result A) : Z :=
  match r with
  | Ok _ => 0%Z
  | Raise KeyboardInterrupt => 130%Z
  | Raise _ => 1%Z
  end.

(** The command line after argparse. *)
Record Args : Type := {
  arg_sink_name : string;
  arg_project_id : string
}.

(** ** gcp-au-writer-audit-cloudshell.py *)
Module Cloudshell.

Record AuditFinding : Type := {
  role : string;
  members : list string;
  expected_role : option string
}.

(** [AuditFinding.__str__]; an expected role of [None] or of the empty
    string adds no second line. *)
Definition AuditFinding_str (W : World) (f : AuditFinding) : string :=
  let base := "Role: " ++ role f ++ ", Members: " ++ repr_members W (members f) in
  match expected_role f with
  | Some (String c r) => base ++ nl ++ "Expected Role: " ++ String c r
  | _ => base
  end.

Module DestinationType.
Definition BIGQUERY : string := "bigquery.googleapis.com".
Definition STORAGE : string := "storage.googleapis.com".
Definition PUBSUB : string := "pubsub.googleapis.com".

Definition EXPECTED_ROLES : dict string :=
  dict_display
    [ (BIGQUERY, "roles/bigquery.dataEditor");
      (STORAGE, "roles/storage.objectCreator");
      (PUBSUB, "roles/pubsub.publisher") ].
End DestinationType.

(** The body of the [for] loop of [audit_policy], [findings] being the list
    appended to. *)
Fixpoint audit_loop (bindings : list (string * list string))
    (writer_identity : string) (expected_role : option string)
    (findings : list AuditFinding) : list AuditFinding :=
  match bindings with
  | [] => findings
  | (role, members) :: rest =>
      if contains writer_identity members then
        let finding := {| role := role; members := members;
                          expected_role := expected_role |} in
        audit_loop rest writer_identity expected_role (findings ++ [finding])%list
      else audit_loop rest writer_identity expected_role findings
  end.

Definition audit_policy (policy : pyval) (writer_identity destination_type : string)
  : result (list AuditFinding) :=
  let findings := [] in
  let bindings := getattr_default policy "bindings" policy in
  let expected_role := dict_get DestinationType.EXPECTED_ROLES destination_type in
  (its <- items bindings ;;
   Ok (audit_loop its writer_identity expected_role findings))%result.

Definition get_destination_info (destination : string)
  : result (string * string * option string) :=
  let parts := split slash destination in
  (dest_type <- getitem parts 0 ;;
   if (List.length parts <? 2)%nat then
     Raise (ValueError ("Invalid destination format: " ++ destination))
   else
     resource_name <- getitem parts (-1) ;;
     project_id <- (if (2 <? List.length parts)%nat
                    then p <- getitem parts 2 ;; Ok (Some p)
                    else Ok None) ;;
     Ok (dest_type, resource_name, project_id))%result.

Section Program.
Variable W : World.

Definition get_writer_identity (sink_name project_id : string)
  : IO (string * string) :=
  try_except
    (client <- lift (logging_client W project_id) ;;
     emit (SinkReload sink_name project_id) ;;;
     lift (client sink_name))%io
    (fun e =>
       if is_NotFound e then
         raise (ValueError ("Sink '" ++ sink_name ++ "' not found in project '"
                            ++ project_id ++ "'"))
       else raise e).

Definition get_storage_policy (bucket_name : string) : IO pyval :=
  try_except
    (emit (BucketGetIamPolicy bucket_name) ;;;
     lift (bucket_get_iam_policy W bucket_name))%io
    (fun e =>
       if is_NotFound e then
         raise (ValueError ("Storage bucket '" ++ bucket_name ++ "' not found"))
       else raise e).

Definition get_bigquery_policy (dataset_id : string) : IO pyval :=
  try_except
    (emit (DatasetGetIamPolicy dataset_id) ;;;
     lift (dataset_get_iam_policy W dataset_id))%io
    (fun e =>
       if is_NotFound e then
         raise (ValueError ("BigQuery dataset '" ++ dataset_id ++ "' not found"))
       else raise e).

Definition get_pubsub_policy (topic_name project_id : string) : IO pyval :=
  try_except
    (emit (TopicGetIamPolicy project_id topic_name) ;;;
     lift (topic_get_iam_policy W project_id topic_name))%io
    (fun e =>
       if is_NotFound e then
         raise (ValueError ("Pub/Sub topic '" ++ topic_name ++ "' not found"))
       else raise e).

(** The [if]/[elif]/[else] of [main] that picks the policy request. *)
Definition select_policy (dest_type resource_name project_id : string)
  : IO pyval :=
  if startswith dest_type DestinationType.BIGQUERY then
    get_bigquery_policy resource_name
  else if startswith dest_type DestinationType.STORAGE then
    get_storage_policy resource_name
  else if startswith dest_type DestinationType.PUBSUB then
    get_pubsub_policy resource_name project_id
  else sys_exit ("Error: Unsupported destination type: " ++ dest_type).

(** The report at the end of [main]. *)
Definition report (findings : list AuditFinding) : IO unit :=
  match findings with
  | _ :: _ =>
      (print (nl ++ "IAM Policy Audit Findings:") ;;;
       for_each findings
         (fun finding => print ("- " ++ AuditFinding_str W finding)))%io
  | [] =>
      print (nl ++ "No excessive permissions found for the writer identity")
  end.

(** The [try] block of [main]. *)
Definition main_body (args : Args) : IO unit :=
  (wd <- get_writer_identity (arg_sink_name args) (arg_project_id args) ;;
   let '(writer_identity, destination) := wd in
   print ("Writer Identity: " ++ writer_identity) ;;;
   print ("Destination: " ++ destination) ;;;
   info <- lift (get_destination_info destination) ;;
   let '(dest_type, resource_name, dest_project) := info in
   let project_id := py_or dest_project (arg_project_id args) in
   policy <- select_policy dest_type resource_name project_id ;;
   findings <- lift (audit_policy policy writer_identity dest_type) ;;
   report findings)%io.

Definition main (args : Args) : IO unit :=
  try_except (main_body args)
    (fun e =>
       if is_ValueError e then sys_exit ("Error: " ++ exn_str e)
       else if is_Exception e then sys_exit ("Unexpected error: " ++ exn_str e)
       else raise e).
End Program.

End Cloudshell.

(** ** gcp-au-writer-audit.py *)
Module Standalone.

(** What a name can be bound to in the script's namespaces. *)
Inductive binding : Type :=
| BModule (name : string)
| BFunction (name : string)
| BObject (descr : string)
| BStr (s : string).

(** [str] of a bound value, as [topic_path] formats its arguments. *)
Definition binding_str (b : binding) : string :=
  match b with
  | BModule n => "<module '" ++ n ++ "'>"
  | BFunction n => "<function " ++ n ++ ">"
  | BObject d => d
  | BStr s => s
  end.

(** The module's globals once the script has been loaded: its four imports
    of line 3, [os] and [argparse], and its six functions. *)
Definition module_globals : dict binding :=
  dict_display
    [ ("os", BModule "os");
      ("argparse", BModule "argparse");
      ("storage", BModule "google.cloud.storage");
      ("bigquery", BModule "google.cloud.bigquery");
      ("pubsub_v1", BModule "google.cloud.pubsub_v1");
      ("iam", BModule "google.cloud.iam");
      ("get_writer_identity", BFunction "get_writer_identity");
      ("get_storage_policy", BFunction "get_storage_policy");
      ("get_bigquery_policy", BFunction "get_bigquery_policy");
      ("get_pubsub_policy", BFunction "get_pubsub_policy");
      ("audit_policy", BFunction "audit_policy");
      ("main", BFunction "main") ].

(** Reading a name inside a function: its own locals, then the module's
    globals (the builtins bind none of the names looked up here), else
    [NameError]. *)
Definition load_name (locals globals : dict binding) (name : string)
  : result binding :=
  match dict_get locals name with
  | Some b => Ok b
  | None =>
      match dict_get globals name with
      | Some b => Ok b
      | None => Raise (NameError name)
      end
  end.

(** The body of the [for] loop of [audit_policy]. *)
Fixpoint audit_loop (bindings : list (string * list string))
    (writer_identity : string) (findings : list (string * list string))
  : list (string * list string) :=
  match bindings with
  | [] => findings
  | (role, members) :: rest =>
      if contains writer_identity members then
        audit_loop rest writer_identity (findings ++ [(role, members)])%list
      else audit_loop rest writer_identity findings
  end.

Definition audit_policy (policy : pyval) (writer_identity : string)
  : result (list (string * list string)) :=
  let findings := [] in
  (its <- items policy ;;
   Ok (audit_loop its writer_identity findings))%result.

Section Program.
Variable W : World.

Definition get_writer_identity (sink_name project_id : string)
  : IO (string * string) :=
  (client <- lift (logging_client W project_id) ;;
   emit (SinkReload sink_name project_id) ;;;
   lift (client sink_name))%io.

Definition get_storage_policy (bucket_name : string) : IO pyval :=
  (emit (BucketGetIamPolicy bucket_name) ;;;
   lift (bucket_get_iam_policy W bucket_name))%io.

Definition get_bigquery_policy (dataset_id : string) : IO pyval :=
  (emit (DatasetGetIamPolicy dataset_id) ;;;
   lift (dataset_get_iam_policy W dataset_id))%io.

(** [get_pubsub_policy(topic_name)]: the locals are the parameter and
    [client]; [project_id] is read as an argument of [topic_path]. *)
Definition get_pubsub_policy (topic_name : string) : IO pyval :=
  let locals :=
    dict_display [ ("topic_name", BStr topic_name);
                   ("client", BObject "PublisherClient") ] in
  (project_id <- lift (load_name locals module_globals "project_id") ;;
   topic <- lift (load_name locals module_globals "topic_name") ;;
   emit (TopicGetIamPolicy (binding_str project_id) (binding_str topic)) ;;;
   lift (topic_get_iam_policy W (binding_str project_id) (binding_str topic)))%io.

Definition report (findings : list (string * list string)) : IO unit :=
  match findings with
  | _ :: _ =>
      (print (nl ++ "IAM Policy Audit Findings:") ;;;
       for_each findings
         (fun rm => print ("- Role: " ++ fst rm ++ ", Members: "
                           ++ repr_members W (snd rm))))%io
  | [] =>
      print (nl ++ "No excessive permissions found for the writer identity.")
  end.

(** [not os.getenv(name)]: unset and empty both count as absent. *)
Definition env_missing (name : string) : bool :=
  match getenv W name with
  | None => true
  | Some EmptyString => true
  | Some _ => false
  end.

(** The [if]/[elif]/[else] of [main]; [None] is the [return] of the
    [else] branch. *)
Definition select_and_audit (destination writer_identity : string)
  : IO (option (list (string * list string))) :=
  if startswith destination "bigquery.googleapis.com" then
    (dataset_id <- lift (getitem (split slash destination) (-1)) ;;
     policy <- get_bigquery_policy dataset_id ;;
     bindings <- lift (getattr policy "bindings") ;;
     findings <- lift (audit_policy bindings writer_identity) ;;
     ret (Some findings))%io
  else if startswith destination "storage.googleapis.com" then
    (bucket_name <- lift (getitem (split slash destination) (-1)) ;;
     policy <- get_storage_policy bucket_name ;;
     findings <- lift (audit_policy policy writer_identity) ;;
     ret (Some findings))%io
  else if startswith destination "pubsub.googleapis.com" then
    (topic_name <- lift (getitem (split slash destination) (-1)) ;;
     policy <- get_pubsub_policy topic_name ;;
     bindings <- lift (getattr policy "bindings") ;;
     findings <- lift (audit_policy bindings writer_identity) ;;
     ret (Some findings))%io
  else
    (print "Unsupported destination type." ;;; ret None)%io.

Definition main (args : Args) : IO unit :=
  if env_missing "GOOGLE_APPLICATION_CREDENTIALS" then
    print "Please set the GOOGLE_APPLICATION_CREDENTIALS environment variable to your service account key."
  else
    (wd <- get_writer_identity (arg_sink_name args) (arg_project_id args) ;;
     let '(writer_identity, destination) := wd in
     print ("Writer Identity: " ++ writer_identity) ;;;
     print ("Destination: " ++ destination) ;;;
     r <- select_and_audit destination writer_identity ;;
     match r with
     | Some findings => report findings
     | None => ret tt
     end)%io.
End Program.

End Standalone.

(** ** The cloudshell auditor over a store of objects

    [audit_policy] builds new objects on each call (the list [findings] and
    one [AuditFinding] per kept binding) and shares others (a finding's
    [members] is the very object the policy holds).  Here objects live in a
    store, a list of cells addressed by position; a call allocates at the
    end of the store and mutates only the list it builds. *)
Module Store.

Definition loc : Type := nat.

Inductive cell : Type :=
| CMembers (ms : list string)                  (* a sequence of members *)
| CDict (entries : list (string * loc))        (* role -> members object *)
| CObject (attrs : list (string * loc))        (* an object and its attributes *)
| CMapping (entries : list (string * loc)) (attrs : list (string * loc))
                                               (* a mapping with attributes *)
| CFinding (role : string) (members : loc) (expected_role : option string)
| CList (elems : list loc).

Definition heap : Type := list cell.

Definition deref (h : heap) (l : loc) : option cell := nth_error h l.

Definition alloc (h : heap) (c : cell) : loc * heap :=
  (List.length h, (h ++ [c])%list).

Fixpoint update (h : heap) (l : loc) (c : cell) : heap :=
  match h, l with
  | [], _ => []
  | _ :: h', O => c :: h'
  | c0 :: h', S l' => c0 :: update h' l' c
  end.

Fixpoint assoc (kvs : list (string * loc)) (k : string) : option loc :=
  match kvs with
  | [] => None
  | (k', l) :: rest => if String.eqb k' k then Some l else assoc rest k
  end.

(** [getattr(policy, 'bindings', policy)]: an object, mapping or not,
    carries the attributes it lists; a dict, a sequence, a finding and a
    list have none of that name. *)
Definition get_bindings (h : heap) (policy : loc) : loc :=
  match deref h policy with
  | Some (CObject attrs) | Some (CMapping _ attrs) =>
      match assoc attrs "bindings" with
      | Some l => l
      | None => policy
      end
  | _ => policy
  end.

(** [bindings.items()] *)
Definition items (h : heap) (bindings : loc) : result (list (string * loc)) :=
  match deref h bindings with
  | Some (CDict entries) | Some (CMapping entries _) => Ok entries
  | _ => Raise (AttributeError "object has no attribute 'items'")
  end.

(** [writer_identity in members]: membership in a sequence of strings, among
    the keys of a dict or of a mapping, never in a list of objects; the
    other objects are not iterable. *)
Definition py_in (h : heap) (x : string) (members : loc) : result bool :=
  match deref h members with
  | Some (CMembers ms) => Ok (contains x ms)
  | Some (CDict entries) | Some (CMapping entries _) =>
      Ok (existsb (String.eqb x) (map fst entries))
  | Some (CList _) => Ok false
  | _ => Raise (TypeError "argument is not iterable")
  end.

(** [findings.append(finding)] *)
Definition append (h : heap) (findings finding : loc) : result heap :=
  match deref h findings with
  | Some (CList elems) => Ok (update h findings (CList (elems ++ [finding])%list))
  | _ => Raise (AttributeError "object has no attribute 'append'")
  end.

Fixpoint audit_loop (entries : list (string * loc))
    (writer_identity : string) (expected_role : option string)
    (findings : loc) (h : heap) : result unit * heap :=
  match entries with
  | [] => (Ok tt, h)
  | (role, members) :: rest =>
      match py_in h writer_identity members with
      | Raise e => (Raise e, h)
      | Ok true =>
          let '(finding, h1) := alloc h (CFinding role members expected_role) in
          match append h1 findings finding with
          | Raise e => (Raise e, h1)
          | Ok h2 => audit_loop rest writer_identity expected_role findings h2
          end
      | Ok false => audit_loop rest writer_identity expected_role findings h
      end
  end.

Definition audit_policy (policy : loc) (writer_identity destination_type : string)
    (h : heap) : result loc * heap :=
  let '(findings, h1) := alloc h (CList []) in
  let bindings := get_bindings h1 policy in
  let expected_role :=
    dict_get Cloudshell.DestinationType.EXPECTED_ROLES destination_type in
  match items h1 bindings with
  | Raise e => (Raise e, h1)
  | Ok entries =>
      match audit_loop entries writer_identity expected_role findings h1 with
      | (Raise e, h2) => (Raise e, h2)
      | (Ok _, h2) => (Ok findings, h2)
      end
  end.

(** Reading a list of findings back from the store. *)
Definition read_finding (h : heap) (l : loc) : option Cloudshell.AuditFinding :=
  match deref h l with
  | Some (CFinding r m e) =>
      match deref h m with
      | Some (CMembers ms) =>
          Some {| Cloudshell.role := r; Cloudshell.members := ms;
                  Cloudshell.expected_role := e |}
      | _ => None
      end
  | _ => None
  end.

Fixpoint read_all (h : heap) (ls : list loc) : option (list Cloudshell.AuditFinding) :=
  match ls with
  | [] => Some []
  | l :: ls' =>
      match read_finding h l, read_all h ls' with
      | Some f, Some fs => Some (f :: fs)
      | _, _ => None
      end
  end.

Definition read_findings (h : heap) (l : loc) : option (list Cloudshell.AuditFinding) :=
  match deref h l with
  | Some (CList elems) => read_all h elems
  | _ => None
  end.

(** The store holds the mapping [d] at [l]. *)
Definition holds_dict (h : heap) (l : loc) (d : dict (list string)) : Prop :=
  exists entries,
    deref h l = Some (CDict entries)
    /\ Forall2 (fun e kv => fst e = fst kv
                            /\ deref h (snd e) = Some (CMembers (snd kv)))
         entries d.

(** The store holds at [l] a mapping with attributes whose items are
    [d]. *)
Definition holds_mapping (h : heap) (l : loc) (d : dict (list string)) : Prop :=
  exists entries attrs,
    deref h l = Some (CMapping entries attrs)
    /\ Forall2 (fun e kv => fst e = fst kv
                            /\ deref h (snd e) = Some (CMembers (snd kv)))
         entries d.

(** The store holds the value [v] at [l], as far as an attribute's value
    goes: a mapping in full, an object as an object. *)
Definition holds_attr (h : heap) (l : loc) (v : pyval) : Prop :=
  match v with
  | PyDict d => holds_dict h l d
  | PyObject _ => exists attrs, deref h l = Some (CObject attrs)
  | PyMapping d _ => holds_mapping h l d
  end.

(** The store holds the policy [v] at [l]: a dict, or an object, mapping
    or not, with the same attribute names, each attribute held in turn. *)
Definition holds_policy (h : heap) (l : loc) (v : pyval) : Prop :=
  match v with
  | PyDict d => holds_dict h l d
  | PyObject vattrs =>
      exists attrs,
        deref h l = Some (CObject attrs)
        /\ Forall2 (fun a va => fst a = fst va /\ holds_attr h (snd a) (snd va))
             attrs vattrs
  | PyMapping d vattrs =>
      exists entries attrs,
        deref h l = Some (CMapping entries attrs)
        /\ Forall2 (fun e kv => fst e = fst kv
                                /\ deref h (snd e) = Some (CMembers (snd kv)))
             entries d
        /\ Forall2 (fun a va => fst a = fst va /\ holds_attr h (snd a) (snd va))
             attrs vattrs
  end.

(** The store holds the finding [f] at [l]. *)
Definition holds_finding (h : heap) (l : loc) (f : Cloudshell.AuditFinding) : Prop :=
  exists m,
    deref h l = Some (CFinding (Cloudshell.role f) m (Cloudshell.expected_role f))
    /\ deref h m = Some (CMembers (Cloudshell.members f)).

(** Every object of [h] is still there, unchanged, in [h']. *)
Definition preserves (h h' : heap) : Prop :=
  forall l c, deref h l = Some c -> deref h' l = Some c.

(** The storage scenario's policy in a store, the dict at address 2. *)
Definition storage_scenario_heap : heap :=
  [ CMembers ["writerIdentity"];
    CMembers ["writerIdentity"; "other"];
    CDict [("roles/storage.objectCreator", 0); ("roles/storage.admin", 1)] ].

End Store.

(** ** Vocabulary of the statements *)

(** [o.items()] on a value, under a name that the store's [items] does not
    hide. *)
Definition value_items (o : pyval) : result (list (string * list string)) :=
  items o.

(** The bindings the loop keeps: those whose members hold the writer
    identity, in iteration order. *)
Definition granted (writer_identity : string)
    (bindings : list (string * list string)) : list (string * list string) :=
  filter (fun rm => contains writer_identity (snd rm)) bindings.

Definition finding_binding (f : Cloudshell.AuditFinding) : string * list string :=
  (Cloudshell.role f, Cloudshell.members f).

(** What "one finding per role that holds the identity" means for the
    (role, members) pairs found in a policy [d]. *)
Definition one_per_granted_role (d : dict (list string)) (w : string)
    (found : list (string * list string)) : Prop :=
  (forall r,
      count_occ string_dec (map fst found) r
      = match dict_get d r with
        | Some ms => if contains w ms then 1 else 0
        | None => 0
        end)
  /\ ((forall r ms, In (r, ms) (dict_items d) -> ~ In w ms) -> found = [])
  /\ Forall (fun rm => In (fst rm) (dict_keys d) /\ In w (snd rm)
                       /\ dict_get d (fst rm) = Some (snd rm)) found.

(** The policy of the storage scenario: two roles, both granted to the
    writer identity. *)
Definition storage_scenario_policy : dict (list string) :=
  dict_display
    [ ("roles/storage.objectCreator", ["writerIdentity"]);
      ("roles/storage.admin", ["writerIdentity"; "other"]) ].

(** The events of a run of either script up to the choice of the policy
    request: the sink lookup and the two lines printed after it. *)
Definition prelude (args : Args) (w d : string) : trace :=
  [ SinkReload (arg_sink_name args) (arg_project_id args);
    Print ("Writer Identity: " ++ w);
    Print ("Destination: " ++ d) ].

(** A world for the scenarios: the sink resolves to the writer identity
    "writerIdentity" and to [destination], every resource has the policy of
    the storage scenario (wrapped in [bindings] where the client returns an
    object), and the credential variable holds [credentials]. *)
Definition scenario_world (destination : string) (credentials : option string)
  : World :=
  {| getenv := fun _ => credentials;
     logging_client := fun _ => Ok (fun _ => Ok ("writerIdentity", destination));
     bucket_get_iam_policy := fun _ => Ok (PyDict storage_scenario_policy);
     dataset_get_iam_policy :=
       fun _ => Ok (PyObject [("bindings", PyDict storage_scenario_policy)]);
     topic_get_iam_policy :=
       fun _ _ => Ok (PyObject [("bindings", PyDict storage_scenario_policy)]);
     repr_members := String.concat ", " |}.

Definition scenario_args : Args :=
  {| arg_sink_name := "my-sink"; arg_project_id := "my-project" |}.

(** The guard on credentials as a run would have to show it: with the
    credential variable unset, no request is sent, a line is printed and
    the exit status is not zero. *)
Definition fails_fast_without_credentials
    (main : World -> Args -> IO unit) (W : World) (args : Args) : Prop :=
  getenv W "GOOGLE_APPLICATION_CREDENTIALS" = None ->
  requests (snd (run (main W args))) = []
  /\ (exists line, In (Print line) (snd (run (main W args))))
  /\ exit_status (fst (run (main W args))) <> 0%Z.

(** A world whose collaborators answer the same whatever they are asked:
    the credential variable, the sink lookup by a logging client that can
    be built, and the three policy requests. *)
Definition constant_world (credentials : option string)
    (sink : result (string * string)) (bucket dataset topic : result pyval)
  : World :=
  {| getenv := fun _ => credentials;
     logging_client := fun _ => Ok (fun _ => sink);
     bucket_get_iam_policy := fun _ => bucket;
     dataset_get_iam_policy := fun _ => dataset;
     topic_get_iam_policy := fun _ _ => topic;
     repr_members := String.concat ", " |}.

(** The lines the cloudshell [main] prints for its findings. *)
Definition cloudshell_report_lines (W : World)
    (findings : list Cloudshell.AuditFinding) : list string :=
  match findings with
  | [] => [nl ++ "No excessive permissions found for the writer identity"]
  | _ :: _ =>
      (nl ++ "IAM Policy Audit Findings:")
      :: map (fun f => "- " ++ Cloudshell.AuditFinding_str W f) findings
  end.


(** A world without credentials: building the logging client raises [e],
    and the credential variable is unset. *)
Definition clientless_world (e : exn) : World :=
  {| getenv := fun _ => None;
     logging_client := fun _ => Raise e;
     bucket_get_iam_policy := fun _ => Ok (PyDict []);
     dataset_get_iam_policy := fun _ => Ok (PyDict []);
     topic_get_iam_policy := fun _ _ => Ok (PyDict []);
     repr_members := String.concat ", " |}.

(** What the case of an unsupported type asks of a run: that it fails, and
    that no policy is requested. *)
Definition fails_without_fetch
    (main : World -> Args -> IO unit) (W : World) (args : Args) : Prop :=
  exit_status (fst (run (main W args))) <> 0%Z
  /\ policy_fetches (snd (run (main W args))) = [].

(** One of the collaborators of the world raises [e]: the building of a
    logging client, the reload of a sink, or one of the three policy
    requests. *)
Definition collaborator_raises (W : World) (e : exn) : Prop :=
  (exists project, logging_client W project = Raise e)
  \/ (exists project client sink,
        logging_client W project = Ok client /\ client sink = Raise e)
  \/ (exists name, bucket_get_iam_policy W name = Raise e)
  \/ (exists name, dataset_get_iam_policy W name = Raise e)
  \/ (exists project name, topic_get_iam_policy W project name = Raise e).

(** * Properties *)

(** ** Results *)

Lemma rbind_Ok {A B} (r : result A) (k : A -> result B) (b : B) :
  rbind r k = Ok b -> exists a, r = Ok a /\ k a = Ok b.
Proof.
  destruct r as [a|e]; simpl; intros H; [eauto | discriminate].
Qed.

(** ** Splitting and joining *)

Section Split.
Variable sep : ascii.

Lemma split_not_nil (s : string) : split sep s <> [].
Proof.
  destruct s as [|c s]; simpl; [discriminate|].
  destruct (Ascii.eqb c sep); [discriminate|].
  destruct (split sep s); discriminate.
Qed.

Lemma split_length_pos (s : string) : 1 <= List.length (split sep s).
Proof.
  pose proof (split_not_nil s) as H.
  destruct (split sep s); [congruence | simpl; lia].
Qed.

Lemma has_char_cons (c : ascii) (s : string) :
  has_char sep (String c s) = false ->
  Ascii.eqb c sep = false /\ has_char sep s = false.
Proof.
  simpl. intros H. apply orb_false_iff in H. exact H.
Qed.

Lemma split_app_sep (s rest : string) :
  sep_free sep s ->
  split sep (s ++ String sep rest) = s :: split sep rest.
Proof.
  unfold sep_free. induction s as [|c s IH]; intros Hs; simpl.
  - now rewrite Ascii.eqb_refl.
  - apply has_char_cons in Hs as [Hc Hs].
    rewrite Hc, (IH Hs). reflexivity.
Qed.

Lemma split_sep_free (s : string) : sep_free sep s -> split sep s = [s].
Proof.
  unfold sep_free. induction s as [|c s IH]; intros Hs; simpl; [reflexivity|].
  apply has_char_cons in Hs as [Hc Hs].
  now rewrite Hc, (IH Hs).
Qed.

(** Splitting a joined list of separator-free segments gives the list
    back. *)
Lemma split_concat (segs : list string) :
  segs <> [] ->
  Forall (sep_free sep) segs ->
  split sep (String.concat (String sep EmptyString) segs) = segs.
Proof.
  induction segs as [|x xs IH]; intros Hne Hall; [congruence|].
  inversion Hall as [|? ? Hx Hxs]; subst.
  destruct xs as [|y ys].
  - simpl. now apply split_sep_free.
  - change (String.concat (String sep EmptyString) (x :: y :: ys))
      with (x ++ String sep (String.concat (String sep EmptyString) (y :: ys))).
    rewrite (split_app_sep _ _ Hx), IH; [reflexivity | discriminate | assumption].
Qed.

(** Joining the segments of a string gives the string back, and no
    segment holds the separator. *)
Lemma concat_split (s : string) :
  String.concat (String sep EmptyString) (split sep s) = s.
Proof.
  induction s as [|c s IH]; [reflexivity|].
  simpl. destruct (Ascii.eqb_spec c sep) as [->|Hc].
  - pose proof (split_not_nil s) as Hne.
    destruct (split sep s) as [|y ys] eqn:E; [congruence|].
    change (String.concat (String sep EmptyString) (EmptyString :: y :: ys))
      with (String sep (String.concat (String sep EmptyString) (y :: ys))).
    now rewrite IH.
  - pose proof (split_not_nil s) as Hne.
    destruct (split sep s) as [|y ys] eqn:E; [congruence|].
    destruct ys as [|z zs]; simpl in *; now rewrite <- IH.
Qed.

Lemma split_segments_sep_free (s : string) : Forall (sep_free sep) (split sep s).
Proof.
  unfold sep_free. induction s as [|c s IH]; simpl.
  - constructor; [reflexivity | constructor].
  - destruct (Ascii.eqb c sep) eqn:Hc.
    + constructor; [reflexivity | exact IH].
    + destruct (split sep s) as [|y ys]; simpl.
      * constructor; [simpl; now rewrite Hc | constructor].
      * inversion IH; subst. constructor; [simpl|assumption].
        rewrite Hc. assumption.
Qed.

(** [split] is the only way to cut a string into separator-free
    segments. *)
Lemma segments_unique (s : string) (segs : list string) :
  segs <> [] ->
  Forall (sep_free sep) segs ->
  s = String.concat (String sep EmptyString) segs ->
  split sep s = segs.
Proof.
  intros Hne Hall ->. now apply split_concat.
Qed.
(** Every string is the join of its segments, so the two cases "fewer than
    two" and "two or more" segments cover all destinations. *)
Lemma segments_exist (s : string) :
  exists segs,
    segs <> []
    /\ Forall (sep_free sep) segs
    /\ s = String.concat (String sep EmptyString) segs.
Proof.
  exists (split sep s). split; [apply split_not_nil|].
  split; [apply split_segments_sep_free | symmetry; apply concat_split].
Qed.
End Split.

(** ** Indexing *)

Lemma getitem_nat {A} (l : list A) (i : nat) (d : A) :
  i < List.length l -> getitem l (Z.of_nat i) = Ok (nth i l d).
Proof.
  intros Hi. unfold getitem.
  destruct (Z.ltb_spec (Z.of_nat i) 0) as [Hneg|_]; [lia|].
  destruct (Z.ltb_spec (Z.of_nat i) 0) as [Hneg|_]; [lia|].
  destruct (Z.leb_spec (Z.of_nat (List.length l)) (Z.of_nat i)) as [Hge|_]; [lia|].
  simpl. rewrite Nat2Z.id.
  now rewrite (nth_error_nth' l d Hi).
Qed.

Lemma nth_pred_length_last {A} (l : list A) (d : A) :
  nth (List.length l - 1) l d = last l d.
Proof.
  induction l as [|x [|y l] IH]; try reflexivity.
  replace (List.length (x :: y :: l) - 1) with (S (List.length (y :: l) - 1))
    by (simpl; lia).
  exact IH.
Qed.

Lemma getitem_last {A} (l : list A) (d : A) :
  l <> [] -> getitem l (-1) = Ok (last l d).
Proof.
  intros Hne.
  assert (Hlen : 1 <= List.length l) by (destruct l; [congruence | simpl; lia]).
  unfold getitem.
  change (-1 <? 0)%Z with true. cbv iota.
  destruct (Z.ltb_spec (-1 + Z.of_nat (List.length l)) 0) as [Hneg|_]; [lia|].
  destruct (Z.leb_spec (Z.of_nat (List.length l))
              (-1 + Z.of_nat (List.length l))) as [Hge|_]; [lia|].
  simpl orb. cbv iota.
  replace (Z.to_nat (-1 + Z.of_nat (List.length l))) with (List.length l - 1) by lia.
  rewrite (nth_error_nth' l d) by lia.
  now rewrite nth_pred_length_last.
Qed.

(** ** The destination parser *)

(** C3.  When the destination is the join by "/" of two or more slash-free
    segments, [get_destination_info] returns: as type the first segment, as
    resource name the last one, and as project the third segment when there
    are more than two segments and [None] when there are exactly two. *)
Theorem get_destination_info_segments (destination : string) (segs : list string) :
  destination = String.concat "/" segs ->
  Forall (sep_free slash) segs ->
  2 <= List.length segs ->
  exists project,
    Cloudshell.get_destination_info destination
      = Ok (nth 0 segs EmptyString, last segs EmptyString, project)
    /\ (2 < List.length segs -> project = Some (nth 2 segs EmptyString))
    /\ (List.length segs = 2 -> project = None).
Proof.
  intros Hd Hfree Hlen.
  assert (Hne : segs <> []) by (destruct segs; [simpl in Hlen; lia | discriminate]).
  unfold Cloudshell.get_destination_info.
  rewrite (segments_unique slash destination segs Hne Hfree Hd).
  pose proof (getitem_nat segs 0 EmptyString) as H0.
  pose proof (getitem_nat segs 2 EmptyString) as H2.
  simpl Z.of_nat in H0, H2.
  rewrite H0 by lia. simpl rbind.
  destruct (Nat.ltb_spec (List.length segs) 2) as [Hlt|_]; [lia|].
  rewrite (getitem_last segs EmptyString Hne). simpl rbind.
  destruct (Nat.ltb_spec 2 (List.length segs)) as [Hgt|Hle].
  - rewrite H2 by lia. simpl.
    eexists; split; [reflexivity|]. split; [reflexivity | lia].
  - simpl. eexists; split; [reflexivity|]. split; [lia | reflexivity].
Qed.

Lemma get_destination_info_segments_witness :
  exists project,
    Cloudshell.get_destination_info "storage.googleapis.com/projects/p1/buckets/b1"
      = Ok ("storage.googleapis.com", "b1", project)
    /\ (2 < 5 -> project = Some "p1")
    /\ (5 = 2 -> project = None).
Proof.
  apply (get_destination_info_segments
           "storage.googleapis.com/projects/p1/buckets/b1"
           ["storage.googleapis.com"; "projects"; "p1"; "buckets"; "b1"]).
  - reflexivity.
  - repeat constructor.
  - simpl; lia.
Defined.

(** The two parsing scenarios, evaluated. *)
Example get_destination_info_bucket :
  Cloudshell.get_destination_info "storage.googleapis.com/projects/p1/buckets/b1"
  = Ok ("storage.googleapis.com", "b1", Some "p1").
Proof. reflexivity. Qed.

Example get_destination_info_topic :
  Cloudshell.get_destination_info "pubsub.googleapis.com/t1"
  = Ok ("pubsub.googleapis.com", "t1", None).
Proof. reflexivity. Qed.

(** C4.  When the destination has fewer than two segments, that is when it
    holds no "/", [get_destination_info] raises [ValueError] with the
    invalid-format message, so it returns no tuple. *)
Theorem get_destination_info_invalid (destination : string) (segs : list string) :
  destination = String.concat "/" segs ->
  Forall (sep_free slash) segs ->
  List.length segs < 2 ->
  Cloudshell.get_destination_info destination
    = Raise (ValueError ("Invalid destination format: " ++ destination))
  /\ forall info, Cloudshell.get_destination_info destination <> Ok info.
Proof.
  intros Hd Hfree Hlen.
  assert (Hsplit : split slash destination = [destination]).
  { destruct segs as [|x [|y segs]]; simpl in Hlen; try lia; simpl in Hd; subst.
    - reflexivity.
    - inversion Hfree; subst. now apply split_sep_free. }
  assert (Hraise : Cloudshell.get_destination_info destination
                   = Raise (ValueError ("Invalid destination format: " ++ destination))).
  { unfold Cloudshell.get_destination_info. rewrite Hsplit. reflexivity. }
  split; [exact Hraise|]. intros info. rewrite Hraise. discriminate.
Qed.

Lemma get_destination_info_invalid_witness :
  Cloudshell.get_destination_info "storage.googleapis.com"
    = Raise (ValueError ("Invalid destination format: " ++ "storage.googleapis.com"))
  /\ forall info, Cloudshell.get_destination_info "storage.googleapis.com" <> Ok info.
Proof.
  apply (get_destination_info_invalid "storage.googleapis.com"
           ["storage.googleapis.com"]).
  - reflexivity.
  - repeat constructor.
  - simpl; lia.
Defined.

(** ** Membership and dicts *)

Lemma contains_In (x : string) (l : list string) :
  contains x l = true <-> In x l.
Proof.
  unfold contains. rewrite existsb_exists. split.
  - intros [y [Hy Heq]]. apply String.eqb_eq in Heq. now subst.
  - intros Hin. exists x. split; [assumption | apply String.eqb_refl].
Qed.

Lemma dict_get_In {V} (d : dict V) (k : string) (v : V) :
  dict_get d k = Some v -> In (k, v) (dict_items d).
Proof.
  unfold dict_items. induction d as [|[k' v'] d IH]; simpl; [discriminate|].
  destruct (String.eqb_spec k' k) as [->|Hne]; intros H.
  - injection H as ->. now left.
  - right. now apply IH.
Qed.

Lemma dict_get_not_key {V} (d : dict V) (k : string) :
  ~ In k (dict_keys d) -> dict_get d k = None.
Proof.
  unfold dict_keys. induction d as [|[k' v'] d IH]; simpl; [reflexivity|].
  intros Hnot. destruct (String.eqb_spec k' k) as [->|Hne].
  - exfalso. apply Hnot. now left.
  - apply IH. intros Hin. apply Hnot. now right.
Qed.

Lemma dict_keys_set {V} (d : dict V) (k : string) (v : V) :
  dict_keys (dict_set d k v)
  = if existsb (String.eqb k) (dict_keys d) then dict_keys d
    else (dict_keys d ++ [k])%list.
Proof.
  unfold dict_keys. induction d as [|[k' v'] d IH]; simpl; [reflexivity|].
  rewrite (String.eqb_sym k k').
  destruct (String.eqb_spec k' k) as [->|Hne]; simpl; [reflexivity|].
  rewrite IH. now destruct (existsb (String.eqb k) (map fst d)).
Qed.

(** [d[k] = v] keeps the keys unique, so every dict display is
    well formed. *)
Lemma dict_set_wf {V} (d : dict V) (k : string) (v : V) :
  dict_wf d -> dict_wf (dict_set d k v).
Proof.
  unfold dict_wf. intros Hwf. rewrite dict_keys_set.
  destruct (existsb (String.eqb k) (dict_keys d)) eqn:E; [assumption|].
  apply NoDup_app; [assumption | repeat constructor; intros [] | ].
  intros x Hx [Heq|[]]. subst x.
  assert (existsb (String.eqb k) (dict_keys d) = true) as Hex.
  { apply existsb_exists. exists k. split; [assumption | apply String.eqb_refl]. }
  congruence.
Qed.

Lemma dict_display_wf {V} (kvs : list (string * V)) : dict_wf (dict_display kvs).
Proof.
  unfold dict_display.
  assert (H : forall d : dict V, dict_wf d ->
            dict_wf (fold_left (fun d kv => dict_set d (fst kv) (snd kv)) kvs d)).
  { induction kvs as [|kv kvs IH]; intros d Hd; simpl; [assumption|].
    apply IH. now apply dict_set_wf. }
  apply H. constructor.
Qed.

(** ** The audit loop *)


Lemma cloudshell_audit_loop_spec bindings w e acc :
  Cloudshell.audit_loop bindings w e acc
  = (acc ++ map (fun rm => {| Cloudshell.role := fst rm;
                              Cloudshell.members := snd rm;
                              Cloudshell.expected_role := e |})
                (granted w bindings))%list.
Proof.
  revert acc. induction bindings as [|[r ms] rest IH]; intros acc; simpl.
  - now rewrite app_nil_r.
  - destruct (contains w ms); simpl.
    + rewrite IH, <- app_assoc. reflexivity.
    + apply IH.
Qed.

Lemma standalone_audit_loop_spec bindings w acc :
  Standalone.audit_loop bindings w acc = (acc ++ granted w bindings)%list.
Proof.
  revert acc. induction bindings as [|[r ms] rest IH]; intros acc; simpl.
  - now rewrite app_nil_r.
  - destruct (contains w ms); simpl.
    + rewrite IH, <- app_assoc. reflexivity.
    + apply IH.
Qed.

Lemma cloudshell_audit_policy_dict d w t :
  Cloudshell.audit_policy (PyDict d) w t
  = Ok (map (fun rm => {| Cloudshell.role := fst rm;
                          Cloudshell.members := snd rm;
                          Cloudshell.expected_role :=
                            dict_get Cloudshell.DestinationType.EXPECTED_ROLES t |})
            (granted w d)).
Proof.
  unfold Cloudshell.audit_policy. simpl.
  now rewrite cloudshell_audit_loop_spec.
Qed.

(** The auditor over values, in terms of the items of the bindings. *)
Lemma cloudshell_audit_policy_items policy w t :
  Cloudshell.audit_policy policy w t
  = match value_items (getattr_default policy "bindings" policy) with
    | Ok its =>
        Ok (map (fun rm => {| Cloudshell.role := fst rm;
                              Cloudshell.members := snd rm;
                              Cloudshell.expected_role :=
                                dict_get Cloudshell.DestinationType.EXPECTED_ROLES t |})
              (granted w its))
    | Raise e => Raise e
    end.
Proof.
  unfold Cloudshell.audit_policy, value_items.
  destruct (value_items (getattr_default policy "bindings" policy))
    as [its|e] eqn:E; unfold value_items in E; rewrite E; simpl;
    [|reflexivity].
  now rewrite cloudshell_audit_loop_spec.
Qed.

Lemma standalone_audit_policy_items policy w :
  Standalone.audit_policy policy w
  = match value_items policy with
    | Ok its => Ok (granted w its)
    | Raise e => Raise e
    end.
Proof.
  unfold Standalone.audit_policy, value_items.
  destruct (items policy) as [its|e]; simpl; [|reflexivity].
  now rewrite standalone_audit_loop_spec.
Qed.

Lemma map_finding_binding (e : option string) (l : list (string * list string)) :
  map finding_binding
    (map (fun rm => {| Cloudshell.role := fst rm;
                       Cloudshell.members := snd rm;
                       Cloudshell.expected_role := e |}) l)
  = l.
Proof.
  rewrite map_map. unfold finding_binding. simpl.
  induction l as [|[r ms] l IH]; simpl; [reflexivity | now rewrite IH].
Qed.

(** [getattr] with the value itself as default, by [hasattr]. *)
Lemma getattr_default_absent (o : pyval) (name : string) :
  hasattr o name = false -> getattr_default o name o = o.
Proof.
  destruct o as [d|attrs|d attrs]; simpl; [reflexivity| |];
    destruct (attr_lookup attrs name); [discriminate|reflexivity|discriminate|reflexivity].
Qed.

Lemma getattr_default_present (o v : pyval) (name : string) :
  getattr o name = Ok v -> getattr_default o name o = v.
Proof.
  destruct o as [d|attrs|d attrs]; simpl; [discriminate| |];
    destruct (attr_lookup attrs name); intros H; now inversion H.
Qed.

Lemma cloudshell_findings_bindings d w t fs :
  Cloudshell.audit_policy (PyDict d) w t = Ok fs ->
  map finding_binding fs = granted w d.
Proof.
  rewrite cloudshell_audit_policy_dict. intros H. injection H as <-.
  rewrite map_map. unfold finding_binding. simpl.
  induction (granted w d) as [|[r ms] l IH]; simpl; [reflexivity | now rewrite IH].
Qed.

Lemma standalone_audit_policy_dict d w :
  Standalone.audit_policy (PyDict d) w = Ok (granted w d).
Proof.
  unfold Standalone.audit_policy. simpl.
  now rewrite standalone_audit_loop_spec.
Qed.


Lemma granted_count_absent (d : dict (list string)) (w r : string) :
  ~ In r (dict_keys d) ->
  count_occ string_dec (map fst (granted w d)) r = 0.
Proof.
  intros Hnot. apply count_occ_not_In. intros Hin.
  apply in_map_iff in Hin as [[r' ms] [Heq Hin]]. simpl in Heq; subst r'.
  apply filter_In in Hin as [Hin _].
  apply Hnot. unfold dict_keys. apply in_map_iff. now exists (r, ms).
Qed.

Lemma granted_one_per_role (d : dict (list string)) (w : string) :
  dict_wf d -> one_per_granted_role d w (granted w d).
Proof.
  intros Hwf. repeat split.
  - intros r. unfold dict_wf in Hwf.
    induction d as [|[k ms] d IH]; simpl; [reflexivity|].
    simpl in Hwf. inversion Hwf as [|? ? Hk Hd]; subst.
    destruct (String.eqb_spec k r) as [->|Hne].
    + destruct (contains w ms); simpl.
      * destruct (string_dec r r) as [_|Hrr]; [|congruence].
        now rewrite (granted_count_absent d w r Hk).
      * now apply granted_count_absent.
    + destruct (contains w ms); simpl.
      * destruct (string_dec k r) as [Heq|_]; [congruence|]. now apply IH.
      * now apply IH.
  - intros Hnone. unfold granted.
    induction d as [|[k ms] d IH]; simpl; [reflexivity|].
    destruct (contains w ms) eqn:E.
    + exfalso. apply (Hnone k ms); [now left | now apply contains_In].
    + apply IH.
      * unfold dict_wf in *. simpl in Hwf. now inversion Hwf.
      * intros r ms' Hin. apply (Hnone r ms'). now right.
  - apply Forall_forall. intros [r ms] Hin. simpl.
    apply filter_In in Hin as [Hin Hw]. simpl in Hw.
    split; [|split].
    + unfold dict_keys. apply in_map_iff. now exists (r, ms).
    + now apply contains_In.
    + unfold dict_wf in Hwf. unfold dict_items in *.
      induction d as [|[k ms'] d IH]; simpl in *; [contradiction|].
      inversion Hwf as [|? ? Hk Hd]; subst.
      destruct Hin as [Heq|Hin].
      * injection Heq as -> ->. now rewrite String.eqb_refl.
      * destruct (String.eqb_spec k r) as [->|Hne]; [|now apply IH].
        exfalso. apply Hk. apply in_map_iff. now exists (r, ms).
Qed.

(** C1, as stated, fails on the cloudshell auditor.  A mapping from role to
    members that has an attribute [bindings] is not audited itself: when
    the attribute is no mapping the call raises and there is no finding,
    though both roles hold the identity; when the attribute is another
    mapping the findings are of that one, with a role that is no key of the
    policy. *)
Lemma audit_policy_one_finding_per_role_counterexample :
  (forall findings,
      Cloudshell.audit_policy
        (PyMapping storage_scenario_policy [("bindings", PyObject [])])
        "writerIdentity" "storage.googleapis.com" <> Ok findings)
  /\ (exists f,
        Cloudshell.audit_policy
          (PyMapping storage_scenario_policy
             [("bindings", PyDict [("roles/owner", ["writerIdentity"])])])
          "writerIdentity" "storage.googleapis.com" = Ok [f]
        /\ ~ In (Cloudshell.role f) (dict_keys storage_scenario_policy)).
Proof.
  split.
  - intros findings H. vm_compute in H. discriminate.
  - eexists. split; [reflexivity|]. simpl.
    intros [H|[H|[]]]; discriminate.
Qed.

(** C1, amended.  For a policy that is a mapping from roles to members, the
    standalone [audit_policy] returns, and so does the cloudshell one when
    the mapping has no attribute [bindings], a plain dict in particular;
    the (role, members) pairs of the findings are then such that: each
    role of the policy whose members hold the writer identity has exactly
    one finding and every other role has none; there is no finding at all
    when no role's members hold the identity; every finding's role is a
    key of the policy, bound there to the finding's members, and these
    hold the identity.  When the mapping has an attribute [bindings], the
    cloudshell auditor audits the value of the attribute in place of the
    mapping, and raises when that value has no items. *)
Theorem audit_policy_one_finding_per_role
    (d : dict (list string)) (attrs : list (string * pyval))
    (writer_identity destination_type : string) :
  dict_wf d ->
  (exists findings,
      Cloudshell.audit_policy (PyDict d) writer_identity destination_type
        = Ok findings
      /\ one_per_granted_role d writer_identity (map finding_binding findings))
  /\ (exists findings,
      Standalone.audit_policy (PyDict d) writer_identity = Ok findings
      /\ one_per_granted_role d writer_identity findings)
  /\ (attr_lookup attrs "bindings" = None ->
      exists findings,
        Cloudshell.audit_policy (PyMapping d attrs) writer_identity destination_type
          = Ok findings
        /\ one_per_granted_role d writer_identity (map finding_binding findings))
  /\ (exists findings,
      Standalone.audit_policy (PyMapping d attrs) writer_identity = Ok findings
      /\ one_per_granted_role d writer_identity findings)
  /\ (forall v,
        attr_lookup attrs "bindings" = Some v ->
        match value_items v with
        | Ok its =>
            exists findings,
              Cloudshell.audit_policy (PyMapping d attrs)
                writer_identity destination_type = Ok findings
              /\ map finding_binding findings = granted writer_identity its
        | Raise e =>
            Cloudshell.audit_policy (PyMapping d attrs)
              writer_identity destination_type = Raise e
        end).
Proof.
  intros Hwf. split; [|split; [|split; [|split]]].
  - eexists. split; [apply cloudshell_audit_policy_dict|].
    rewrite (cloudshell_findings_bindings d writer_identity destination_type _
               (cloudshell_audit_policy_dict _ _ _)).
    now apply granted_one_per_role.
  - eexists. split; [apply standalone_audit_policy_dict|].
    now apply granted_one_per_role.
  - intros Hnone. rewrite cloudshell_audit_policy_items.
    simpl getattr_default. rewrite Hnone. simpl value_items.
    eexists. split; [reflexivity|]. rewrite map_finding_binding.
    now apply granted_one_per_role.
  - rewrite standalone_audit_policy_items. simpl value_items.
    eexists. split; [reflexivity|]. now apply granted_one_per_role.
  - intros v Hv. rewrite cloudshell_audit_policy_items.
    simpl getattr_default. rewrite Hv.
    destruct (value_items v) as [its|e]; [|reflexivity].
    eexists. split; [reflexivity|]. apply map_finding_binding.
Qed.

Lemma audit_policy_one_finding_per_role_witness :
  (exists findings,
      Cloudshell.audit_policy (PyDict storage_scenario_policy)
        "writerIdentity" "storage.googleapis.com" = Ok findings
      /\ one_per_granted_role storage_scenario_policy "writerIdentity"
           (map finding_binding findings))
  /\ (exists findings,
      Standalone.audit_policy (PyDict storage_scenario_policy) "writerIdentity"
        = Ok findings
      /\ one_per_granted_role storage_scenario_policy "writerIdentity" findings)
  /\ (exists findings,
      Cloudshell.audit_policy
        (PyMapping storage_scenario_policy [("etag", PyObject [])])
        "writerIdentity" "storage.googleapis.com" = Ok findings
      /\ one_per_granted_role storage_scenario_policy "writerIdentity"
           (map finding_binding findings)).
Proof.
  assert (Hwf : dict_wf storage_scenario_policy).
  { unfold dict_wf. simpl. repeat constructor; simpl; intuition discriminate. }
  destruct (audit_policy_one_finding_per_role storage_scenario_policy
              [("etag", PyObject [])]
              "writerIdentity" "storage.googleapis.com" Hwf)
    as [Hc [Hs [Hm _]]].
  split; [exact Hc|]. split; [exact Hs|]. apply Hm. reflexivity.
Defined.

(** C5, as stated, fails when the mapping itself has an attribute
    [bindings]: audited raw, the attribute is audited, here one without
    items, so the call raises; audited as the [bindings] of a wrapper, the
    mapping is audited and two findings come back. *)
Lemma audit_policy_wrapped_bindings_counterexample :
  Cloudshell.audit_policy
    (PyObject [("bindings",
                PyMapping storage_scenario_policy [("bindings", PyObject [])])])
    "writerIdentity" "storage.googleapis.com"
  <> Cloudshell.audit_policy
       (PyMapping storage_scenario_policy [("bindings", PyObject [])])
       "writerIdentity" "storage.googleapis.com".
Proof.
  intros H. vm_compute in H. discriminate.
Qed.

(** C5, amended.  A value [m] that has no attribute [bindings] of its own,
    a plain dict in particular, is audited exactly as an object or a
    mapping whose [bindings] attribute is [m], whatever other attributes
    the wrapper has; when [m] is a mapping, both calls return the findings
    of its items. *)
Theorem audit_policy_wrapped_bindings
    (m wrapper : pyval) (writer_identity destination_type : string) :
  hasattr m "bindings" = false ->
  getattr wrapper "bindings" = Ok m ->
  Cloudshell.audit_policy wrapper writer_identity destination_type
  = Cloudshell.audit_policy m writer_identity destination_type
  /\ forall its,
      value_items m = Ok its ->
      exists findings,
        Cloudshell.audit_policy m writer_identity destination_type = Ok findings
        /\ map finding_binding findings = granted writer_identity its.
Proof.
  intros Hm Hw. rewrite !cloudshell_audit_policy_items.
  rewrite (getattr_default_present wrapper m "bindings" Hw).
  rewrite (getattr_default_absent m "bindings" Hm).
  split; [reflexivity|].
  intros its ->. eexists. split; [reflexivity|]. apply map_finding_binding.
Qed.

Lemma audit_policy_wrapped_bindings_witness :
  Cloudshell.audit_policy
    (PyObject [("version", PyObject []); ("bindings", PyDict storage_scenario_policy)])
    "writerIdentity" "storage.googleapis.com"
  = Cloudshell.audit_policy (PyDict storage_scenario_policy)
      "writerIdentity" "storage.googleapis.com".
Proof.
  apply (audit_policy_wrapped_bindings (PyDict storage_scenario_policy)
           (PyObject [("version", PyObject []);
                      ("bindings", PyDict storage_scenario_policy)]));
    reflexivity.
Defined.

(** ** The expected-role table *)

(** The table is looked up by exact key equality. *)
Lemma expected_roles_get (t : string) :
  dict_get Cloudshell.DestinationType.EXPECTED_ROLES t
  = if String.eqb Cloudshell.DestinationType.BIGQUERY t
    then Some "roles/bigquery.dataEditor"
    else if String.eqb Cloudshell.DestinationType.STORAGE t
    then Some "roles/storage.objectCreator"
    else if String.eqb Cloudshell.DestinationType.PUBSUB t
    then Some "roles/pubsub.publisher"
    else None.
Proof. reflexivity. Qed.

Lemma cloudshell_findings_expected_role policy w t fs :
  Cloudshell.audit_policy policy w t = Ok fs ->
  Forall (fun f => Cloudshell.expected_role f
                   = dict_get Cloudshell.DestinationType.EXPECTED_ROLES t) fs.
Proof.
  unfold Cloudshell.audit_policy. intros H.
  apply rbind_Ok in H as [its [_ H]]. injection H as <-.
  rewrite cloudshell_audit_loop_spec. simpl.
  apply Forall_forall. intros f Hin.
  apply in_map_iff in Hin as [rm [<- _]]. reflexivity.
Qed.



(** ** Traces *)

Lemma policy_fetches_app (t1 t2 : trace) :
  policy_fetches (t1 ++ t2)%list = (policy_fetches t1 ++ policy_fetches t2)%list.
Proof. apply filter_app. Qed.

Lemma policy_fetches_prints (lines : list string) :
  policy_fetches (map Print lines) = [].
Proof. induction lines; simpl; auto. Qed.

Lemma for_each_print {A} (f : A -> string) (xs : list A) (t : trace) :
  for_each xs (fun x => print (f x)) t
  = (Ok tt, (t ++ map (fun x => Print (f x)) xs)%list).
Proof.
  revert t. induction xs as [|x xs IH]; intros t; simpl.
  - unfold ret. now rewrite app_nil_r.
  - unfold bind, print, emit. rewrite IH, <- app_assoc. reflexivity.
Qed.

(** ** The known destination types exclude one another *)

Lemma startswith_head (t : string) (a : ascii) (p : string) :
  startswith t (String a p) = true -> exists t', t = String a t'.
Proof.
  unfold startswith. destruct t as [|c t]; cbn [String.prefix]; [discriminate|].
  destruct (ascii_dec a c) as [->|Hne]; [eauto | discriminate].
Qed.

Lemma startswith_head_neq (a b : ascii) (t p : string) :
  a <> b -> startswith (String a t) (String b p) = false.
Proof.
  intros Hne. unfold startswith. cbn [String.prefix].
  destruct (ascii_dec b a) as [->|_]; [congruence | reflexivity].
Qed.

Lemma known_types_exclusive (t : string) :
  (startswith t Cloudshell.DestinationType.BIGQUERY = true ->
   startswith t Cloudshell.DestinationType.STORAGE = false
   /\ startswith t Cloudshell.DestinationType.PUBSUB = false)
  /\ (startswith t Cloudshell.DestinationType.STORAGE = true ->
      startswith t Cloudshell.DestinationType.BIGQUERY = false
      /\ startswith t Cloudshell.DestinationType.PUBSUB = false)
  /\ (startswith t Cloudshell.DestinationType.PUBSUB = true ->
      startswith t Cloudshell.DestinationType.BIGQUERY = false
      /\ startswith t Cloudshell.DestinationType.STORAGE = false).
Proof.
  unfold Cloudshell.DestinationType.BIGQUERY,
    Cloudshell.DestinationType.STORAGE, Cloudshell.DestinationType.PUBSUB.
  split; [|split]; intros H; apply startswith_head in H as [t' ->];
    split; apply startswith_head_neq; discriminate.
Qed.

(** A prefix without "/" is matched on the first segment alone: testing
    the destination and testing its parsed type agree. *)
Lemma startswith_first_segment (p d : string) :
  sep_free slash p ->
  startswith d p = startswith (nth 0 (split slash d) EmptyString) p.
Proof.
  unfold startswith, sep_free. revert p.
  induction d as [|c d IH]; intros p Hp; [reflexivity|].
  destruct p as [|a p]; [now destruct (split slash (String c d)) as [|[|] ?]|].
  apply has_char_cons in Hp as [Ha Hp].
  cbn [split]. destruct (Ascii.eqb_spec c slash) as [->|Hc].
  - cbn [nth String.prefix].
    destruct (ascii_dec a slash) as [->|_]; [|reflexivity].
    now rewrite Ascii.eqb_refl in Ha.
  - pose proof (split_not_nil slash d) as Hne.
    specialize (IH p Hp).
    destruct (split slash d) as [|seg segs]; [congruence|].
    cbn [nth String.prefix] in *.
    now destruct (ascii_dec a c).
Qed.

(** ** The cloudshell script, step by step *)

(** A sink that resolves was reloaded by a logging client that was built. *)
Lemma sink_reload_Ok (W : World) sink project wd :
  sink_reload W sink project = Ok wd ->
  exists client, logging_client W project = Ok client /\ client sink = Ok wd.
Proof.
  unfold sink_reload. intros H. apply rbind_Ok in H. exact H.
Qed.

Section CloudshellRun.
Variable W : World.

Lemma cloudshell_get_writer_identity_ok sink project wd (t : trace) :
  sink_reload W sink project = Ok wd ->
  Cloudshell.get_writer_identity W sink project t
  = (Ok wd, (t ++ [SinkReload sink project])%list).
Proof.
  intros H. apply sink_reload_Ok in H as [client [Hc Hr]].
  unfold Cloudshell.get_writer_identity, try_except, bind, emit, lift.
  now rewrite Hc, Hr.
Qed.

Lemma cloudshell_get_bigquery_policy_trace name (t : trace) :
  snd (Cloudshell.get_bigquery_policy W name t)
  = (t ++ [DatasetGetIamPolicy name])%list.
Proof.
  unfold Cloudshell.get_bigquery_policy, try_except, bind, emit, lift, raise.
  destruct (dataset_get_iam_policy W name) as [p|e]; simpl; [reflexivity|].
  now destruct (is_NotFound e).
Qed.

Lemma cloudshell_get_storage_policy_trace name (t : trace) :
  snd (Cloudshell.get_storage_policy W name t)
  = (t ++ [BucketGetIamPolicy name])%list.
Proof.
  unfold Cloudshell.get_storage_policy, try_except, bind, emit, lift, raise.
  destruct (bucket_get_iam_policy W name) as [p|e]; simpl; [reflexivity|].
  now destruct (is_NotFound e).
Qed.

Lemma cloudshell_get_pubsub_policy_trace name project (t : trace) :
  snd (Cloudshell.get_pubsub_policy W name project t)
  = (t ++ [TopicGetIamPolicy project name])%list.
Proof.
  unfold Cloudshell.get_pubsub_policy, try_except, bind, emit, lift, raise.
  destruct (topic_get_iam_policy W project name) as [p|e]; simpl; [reflexivity|].
  now destruct (is_NotFound e).
Qed.

Lemma cloudshell_report_prints findings (t : trace) :
  exists lines, Cloudshell.report W findings t = (Ok tt, (t ++ map Print lines)%list).
Proof.
  destruct findings as [|f fs].
  - exists [(nl ++ "No excessive permissions found for the writer identity")].
    reflexivity.
  - exists ((nl ++ "IAM Policy Audit Findings:")
            :: map (fun finding => "- " ++ Cloudshell.AuditFinding_str W finding)
                 (f :: fs)).
    unfold Cloudshell.report, bind, print at 1, emit.
    rewrite (for_each_print
               (fun finding => "- " ++ Cloudshell.AuditFinding_str W finding)).
    rewrite <- app_assoc. cbn [map app]. now rewrite map_map.
Qed.

(** After the policy has been selected, [main] only prints. *)
Lemma cloudshell_main_after_select args w d ty name proj :
  sink_reload W (arg_sink_name args) (arg_project_id args) = Ok (w, d) ->
  Cloudshell.get_destination_info d = Ok (ty, name, proj) ->
  exists lines,
    snd (run (Cloudshell.main W args))
    = (snd (Cloudshell.select_policy W ty name
              (py_or proj (arg_project_id args))
              (prelude args w d))
       ++ map Print lines)%list.
Proof.
  intros Hsink Hparse.
  unfold run, Cloudshell.main, Cloudshell.main_body, try_except.
  unfold bind at 1.
  rewrite (cloudshell_get_writer_identity_ok _ _ _ _ Hsink).
  unfold bind at 1, print at 1, emit.
  unfold bind at 1, print at 1, emit.
  unfold bind at 1, lift at 1. rewrite Hparse.
  unfold bind at 1. simpl app. fold (prelude args w d).
  destruct (Cloudshell.select_policy W ty name _ _) as [[policy|e] t'].
  - unfold bind, lift.
    destruct (Cloudshell.audit_policy policy w ty) as [fs|e].
    + destruct (cloudshell_report_prints fs t') as [lines ->].
      exists lines. reflexivity.
    + exists []. simpl. rewrite app_nil_r.
      destruct (is_ValueError e); [reflexivity|].
      now destruct (is_Exception e).
  - exists []. simpl. rewrite app_nil_r.
    destruct (is_ValueError e); [reflexivity|].
    now destruct (is_Exception e).
Qed.
End CloudshellRun.

(** ** The choice of the policy request *)

Lemma cloudshell_select_policy_cases (W : World) (ty name project : string) :
  (startswith ty Cloudshell.DestinationType.BIGQUERY = true ->
   Cloudshell.select_policy W ty name project
   = Cloudshell.get_bigquery_policy W name)
  /\ (startswith ty Cloudshell.DestinationType.STORAGE = true ->
      Cloudshell.select_policy W ty name project
      = Cloudshell.get_storage_policy W name)
  /\ (startswith ty Cloudshell.DestinationType.PUBSUB = true ->
      Cloudshell.select_policy W ty name project
      = Cloudshell.get_pubsub_policy W name project)
  /\ (startswith ty Cloudshell.DestinationType.BIGQUERY = false ->
      startswith ty Cloudshell.DestinationType.STORAGE = false ->
      startswith ty Cloudshell.DestinationType.PUBSUB = false ->
      Cloudshell.select_policy W ty name project
      = sys_exit ("Error: Unsupported destination type: " ++ ty)).
Proof.
  destruct (known_types_exclusive ty) as [Hb [Hs Hp]].
  unfold Cloudshell.select_policy.
  split; [|split; [|split]].
  - intros H. now rewrite H.
  - intros H. destruct (Hs H) as [-> _]. now rewrite H.
  - intros H. destruct (Hp H) as [-> ->]. now rewrite H.
  - intros -> -> ->. reflexivity.
Qed.

Section StandaloneRun.
Variable W : World.

Lemma standalone_get_pubsub_policy_raises topic (t : trace) :
  Standalone.get_pubsub_policy W topic t = (Raise (NameError "project_id"), t).
Proof. reflexivity. Qed.

Lemma standalone_report_prints findings (t : trace) :
  exists lines, Standalone.report W findings t = (Ok tt, (t ++ map Print lines)%list).
Proof.
  destruct findings as [|f fs].
  - exists [(nl ++ "No excessive permissions found for the writer identity.")].
    reflexivity.
  - exists ((nl ++ "IAM Policy Audit Findings:")
            :: map (fun rm => "- Role: " ++ fst rm ++ ", Members: "
                              ++ repr_members W (snd rm))
                 (f :: fs)).
    unfold Standalone.report, bind, print at 1, emit.
    rewrite (for_each_print
               (fun rm => "- Role: " ++ fst rm ++ ", Members: "
                          ++ repr_members W (snd rm))).
    rewrite <- app_assoc. cbn [map app]. now rewrite map_map.
Qed.

Lemma last_segment_ok (d : string) :
  getitem (split slash d) (-1) = Ok (last (split slash d) EmptyString).
Proof. apply getitem_last, split_not_nil. Qed.

(** Up to the choice of the request, a run with credentials set and a
    sink that resolves is the prelude. *)
Lemma standalone_main_prelude args w d :
  Standalone.env_missing W "GOOGLE_APPLICATION_CREDENTIALS" = false ->
  sink_reload W (arg_sink_name args) (arg_project_id args) = Ok (w, d) ->
  run (Standalone.main W args)
  = bind (Standalone.select_and_audit W d w)
      (fun r => match r with
                | Some findings => Standalone.report W findings
                | None => ret tt
                end)
      (prelude args w d).
Proof.
  intros Henv Hsink. apply sink_reload_Ok in Hsink as [client [Hc Hr]].
  unfold run, Standalone.main. rewrite Henv.
  unfold bind at 1, Standalone.get_writer_identity.
  unfold bind at 1, lift at 1. rewrite Hc.
  unfold bind at 1, emit, lift. rewrite Hr. reflexivity.
Qed.

Lemma standalone_select_bigquery d w (t : trace) :
  startswith d "bigquery.googleapis.com" = true ->
  snd (Standalone.select_and_audit W d w t)
  = (t ++ [DatasetGetIamPolicy (last (split slash d) EmptyString)])%list.
Proof.
  intros H. unfold Standalone.select_and_audit. rewrite H.
  unfold bind at 1, lift at 1. rewrite last_segment_ok.
  unfold bind at 1, Standalone.get_bigquery_policy, bind at 1, emit, lift at 1.
  destruct (dataset_get_iam_policy W _) as [policy|e]; [|reflexivity].
  unfold bind, lift, ret.
  destruct (getattr policy "bindings") as [b|e]; [|reflexivity].
  now destruct (Standalone.audit_policy b w).
Qed.

Lemma standalone_select_storage d w (t : trace) :
  startswith d "storage.googleapis.com" = true ->
  snd (Standalone.select_and_audit W d w t)
  = (t ++ [BucketGetIamPolicy (last (split slash d) EmptyString)])%list.
Proof.
  intros H. unfold Standalone.select_and_audit.
  destruct (known_types_exclusive d) as [_ [Hs _]].
  destruct (Hs H) as [Hb _].
  unfold Cloudshell.DestinationType.BIGQUERY in Hb. rewrite Hb, H.
  unfold bind at 1, lift at 1. rewrite last_segment_ok.
  unfold bind at 1, Standalone.get_storage_policy, bind at 1, emit, lift at 1.
  destruct (bucket_get_iam_policy W _) as [policy|e]; [|reflexivity].
  unfold bind, lift, ret.
  now destruct (Standalone.audit_policy policy w).
Qed.

Lemma standalone_select_pubsub d w (t : trace) :
  startswith d "pubsub.googleapis.com" = true ->
  Standalone.select_and_audit W d w t = (Raise (NameError "project_id"), t).
Proof.
  intros H. unfold Standalone.select_and_audit.
  destruct (known_types_exclusive d) as [_ [_ Hp]].
  destruct (Hp H) as [Hb Hs].
  unfold Cloudshell.DestinationType.BIGQUERY in Hb.
  unfold Cloudshell.DestinationType.STORAGE in Hs. rewrite Hb, Hs, H.
  unfold bind at 1, lift at 1. rewrite last_segment_ok.
  unfold bind at 1. now rewrite standalone_get_pubsub_policy_raises.
Qed.

Lemma standalone_select_unsupported d w (t : trace) :
  startswith d "bigquery.googleapis.com" = false ->
  startswith d "storage.googleapis.com" = false ->
  startswith d "pubsub.googleapis.com" = false ->
  Standalone.select_and_audit W d w t
  = (Ok None, (t ++ [Print "Unsupported destination type."])%list).
Proof.
  intros Hb Hs Hp. unfold Standalone.select_and_audit.
  now rewrite Hb, Hs, Hp.
Qed.

(** After the choice, [main] only prints. *)
Lemma standalone_main_after_select args w d :
  Standalone.env_missing W "GOOGLE_APPLICATION_CREDENTIALS" = false ->
  sink_reload W (arg_sink_name args) (arg_project_id args) = Ok (w, d) ->
  exists lines,
    snd (run (Standalone.main W args))
    = (snd (Standalone.select_and_audit W d w (prelude args w d))
       ++ map Print lines)%list.
Proof.
  intros Henv Hsink. rewrite (standalone_main_prelude _ _ _ Henv Hsink).
  unfold bind.
  destruct (Standalone.select_and_audit W d w _) as [[[fs|]|e] t'].
  - destruct (standalone_report_prints fs t') as [lines ->]. now exists lines.
  - exists []. simpl. now rewrite app_nil_r.
  - exists []. simpl. now rewrite app_nil_r.
Qed.
End StandaloneRun.

Lemma fetches_after_prelude args w d (ev : event) (lines : list string) :
  is_policy_fetch ev = true ->
  policy_fetches ((prelude args w d ++ [ev]) ++ map Print lines)%list = [ev].
Proof.
  intros Hev. rewrite !policy_fetches_app, policy_fetches_prints.
  unfold policy_fetches. simpl. now rewrite Hev.
Qed.

(** C2, as stated, fails on the standalone script: for a destination of
    none of the three known types, with credentials set, the run requests
    no policy but does not fail either; it prints its unsupported-type
    message and returns, so the exit status is 0. *)
Lemma dispatch_selects_one_retrieval_counterexample :
  ~ fails_without_fetch Standalone.main
      (scenario_world "unknown.googleapis.com/x" (Some "key.json")) scenario_args
  /\ fst (run (Standalone.main
                 (scenario_world "unknown.googleapis.com/x" (Some "key.json"))
                 scenario_args)) = Ok tt.
Proof.
  split; [|reflexivity].
  intros [Hexit _]. apply Hexit. reflexivity.
Qed.

(** C2, amended.  Once the sink has been resolved, the cloudshell script
    picks its policy request by prefix match of the parsed type on the
    three known types, which exclude one another, and a run sends exactly
    the one request picked: for the dataset or the bucket named by the
    last segment or for the topic in the resolved project; with no prefix
    matching no policy is requested and the run fails, ending in
    [sys.exit] with the unsupported-type message, exit status 1.  The
    standalone script tests the same prefixes on the destination itself,
    which amounts to testing its first segment: on the BigQuery and the
    Storage prefix a run sends exactly the one request for the dataset or
    bucket named by the last segment; with no prefix matching no policy is
    requested, the run prints its unsupported-type message and returns,
    exit status 0. *)
Theorem dispatch_selects_one_retrieval (W : World) (args : Args) (w d : string) :
  sink_reload W (arg_sink_name args) (arg_project_id args) = Ok (w, d) ->
  (forall ty name proj,
      Cloudshell.get_destination_info d = Ok (ty, name, proj) ->
      let project_id := py_or proj (arg_project_id args) in
      let fetched := policy_fetches (snd (run (Cloudshell.main W args))) in
      (startswith ty Cloudshell.DestinationType.BIGQUERY = true ->
       Cloudshell.select_policy W ty name project_id
       = Cloudshell.get_bigquery_policy W name
       /\ fetched = [DatasetGetIamPolicy name])
      /\ (startswith ty Cloudshell.DestinationType.STORAGE = true ->
          Cloudshell.select_policy W ty name project_id
          = Cloudshell.get_storage_policy W name
          /\ fetched = [BucketGetIamPolicy name])
      /\ (startswith ty Cloudshell.DestinationType.PUBSUB = true ->
          Cloudshell.select_policy W ty name project_id
          = Cloudshell.get_pubsub_policy W name project_id
          /\ fetched = [TopicGetIamPolicy project_id name])
      /\ (startswith ty Cloudshell.DestinationType.BIGQUERY = false ->
          startswith ty Cloudshell.DestinationType.STORAGE = false ->
          startswith ty Cloudshell.DestinationType.PUBSUB = false ->
          run (Cloudshell.main W args)
          = (Raise (SystemExit ("Error: Unsupported destination type: " ++ ty)),
             prelude args w d)
          /\ fetched = []
          /\ exit_status (fst (run (Cloudshell.main W args))) = 1%Z))
  /\ (Standalone.env_missing W "GOOGLE_APPLICATION_CREDENTIALS" = false ->
      let name := last (split slash d) EmptyString in
      let ty := nth 0 (split slash d) EmptyString in
      let fetched := policy_fetches (snd (run (Standalone.main W args))) in
      (startswith d "bigquery.googleapis.com" = startswith ty "bigquery.googleapis.com"
       /\ startswith d "storage.googleapis.com" = startswith ty "storage.googleapis.com"
       /\ startswith d "pubsub.googleapis.com" = startswith ty "pubsub.googleapis.com")
      /\ (startswith d "bigquery.googleapis.com" = true ->
          fetched = [DatasetGetIamPolicy name])
      /\ (startswith d "storage.googleapis.com" = true ->
          fetched = [BucketGetIamPolicy name])
      /\ (startswith d "bigquery.googleapis.com" = false ->
          startswith d "storage.googleapis.com" = false ->
          startswith d "pubsub.googleapis.com" = false ->
          run (Standalone.main W args)
          = (Ok tt, (prelude args w d ++ [Print "Unsupported destination type."])%list)
          /\ fetched = []
          /\ exit_status (fst (run (Standalone.main W args))) = 0%Z)).
Proof.
  intros Hsink. split.
  - intros ty name proj Hparse project_id fetched.
    destruct (cloudshell_main_after_select W args w d ty name proj Hsink Hparse)
      as [lines Hrun].
    fold project_id in Hrun.
    destruct (cloudshell_select_policy_cases W ty name project_id)
      as [Hb [Hs [Hp Hnone]]].
    split; [|split; [|split]].
    + intros H. split; [now apply Hb|].
      unfold fetched. rewrite Hrun, (Hb H), cloudshell_get_bigquery_policy_trace.
      now apply fetches_after_prelude.
    + intros H. split; [now apply Hs|].
      unfold fetched. rewrite Hrun, (Hs H), cloudshell_get_storage_policy_trace.
      now apply fetches_after_prelude.
    + intros H. split; [now apply Hp|].
      unfold fetched. rewrite Hrun, (Hp H), cloudshell_get_pubsub_policy_trace.
      now apply fetches_after_prelude.
    + intros H1 H2 H3.
      assert (Hexit : run (Cloudshell.main W args)
                      = (Raise (SystemExit ("Error: Unsupported destination type: "
                                            ++ ty)),
                         prelude args w d)).
      { unfold run, Cloudshell.main, Cloudshell.main_body, try_except.
        unfold bind at 1.
        rewrite (cloudshell_get_writer_identity_ok _ _ _ _ _ Hsink).
        unfold bind at 1, print at 1, emit.
        unfold bind at 1, print at 1, emit.
        unfold bind at 1, lift at 1. rewrite Hparse.
        unfold bind at 1. fold project_id.
        rewrite (Hnone H1 H2 H3). reflexivity. }
      split; [exact Hexit|]. unfold fetched. now rewrite Hexit.
  - intros Henv name ty fetched.
    destruct (standalone_main_after_select W args w d Henv Hsink) as [lines Hrun].
    pose proof (standalone_main_prelude W args w d Henv Hsink) as Hpre.
    split; [repeat split; now apply startswith_first_segment|].
    split; [|split].
    + intros H. unfold fetched.
      rewrite Hrun, (standalone_select_bigquery W d w _ H).
      now apply fetches_after_prelude.
    + intros H. unfold fetched.
      rewrite Hrun, (standalone_select_storage W d w _ H).
      now apply fetches_after_prelude.
    + intros H1 H2 H3.
      assert (Hexit : run (Standalone.main W args)
                      = (Ok tt, (prelude args w d
                                 ++ [Print "Unsupported destination type."])%list)).
      { rewrite Hpre. unfold bind.
        now rewrite (standalone_select_unsupported W d w _ H1 H2 H3). }
      split; [exact Hexit|]. unfold fetched. now rewrite Hexit.
Qed.

Lemma dispatch_selects_one_retrieval_witness :
  (run (Cloudshell.main (scenario_world "unknown.googleapis.com/x" (Some "key.json"))
          scenario_args)
   = (Raise (SystemExit "Error: Unsupported destination type: unknown.googleapis.com"),
      prelude scenario_args "writerIdentity" "unknown.googleapis.com/x")
   /\ policy_fetches
        (snd (run (Cloudshell.main
                     (scenario_world "unknown.googleapis.com/x" (Some "key.json"))
                     scenario_args))) = []
   /\ exit_status
        (fst (run (Cloudshell.main
                     (scenario_world "unknown.googleapis.com/x" (Some "key.json"))
                     scenario_args))) = 1%Z)
  /\ (run (Standalone.main (scenario_world "unknown.googleapis.com/x" (Some "key.json"))
             scenario_args)
      = (Ok tt, (prelude scenario_args "writerIdentity" "unknown.googleapis.com/x"
                 ++ [Print "Unsupported destination type."])%list)
      /\ policy_fetches
           (snd (run (Standalone.main
                        (scenario_world "unknown.googleapis.com/x" (Some "key.json"))
                        scenario_args))) = []
      /\ exit_status
           (fst (run (Standalone.main
                        (scenario_world "unknown.googleapis.com/x" (Some "key.json"))
                        scenario_args))) = 0%Z).
Proof.
  destruct (dispatch_selects_one_retrieval
              (scenario_world "unknown.googleapis.com/x" (Some "key.json"))
              scenario_args "writerIdentity" "unknown.googleapis.com/x" eq_refl)
    as [Hcloud Hstand].
  split.
  - apply (Hcloud "unknown.googleapis.com" "x" None eq_refl); reflexivity.
  - apply Hstand; reflexivity.
Defined.

(** C9.  A destination type that starts with one of the three known types
    without being equal to it is still sent to that type's policy request,
    while the expected-role table, looked up by equality, has no entry for
    it: every finding of the audit carries [None] as expected role. *)
Theorem prefix_match_without_expected_role
    (W : World) (known ty name project : string) :
  In known [ Cloudshell.DestinationType.BIGQUERY;
             Cloudshell.DestinationType.STORAGE;
             Cloudshell.DestinationType.PUBSUB ] ->
  startswith ty known = true ->
  ty <> known ->
  (known = Cloudshell.DestinationType.BIGQUERY ->
   Cloudshell.select_policy W ty name project
   = Cloudshell.get_bigquery_policy W name)
  /\ (known = Cloudshell.DestinationType.STORAGE ->
      Cloudshell.select_policy W ty name project
      = Cloudshell.get_storage_policy W name)
  /\ (known = Cloudshell.DestinationType.PUBSUB ->
      Cloudshell.select_policy W ty name project
      = Cloudshell.get_pubsub_policy W name project)
  /\ dict_get Cloudshell.DestinationType.EXPECTED_ROLES ty = None
  /\ (forall policy w findings,
         Cloudshell.audit_policy policy w ty = Ok findings ->
         Forall (fun f => Cloudshell.expected_role f = None) findings)
  /\ (forall d w, exists findings,
         Cloudshell.audit_policy (PyDict d) w ty = Ok findings
         /\ map finding_binding findings = granted w d).
Proof.
  intros Hknown Hpre Hne.
  destruct (cloudshell_select_policy_cases W ty name project) as [Hb [Hs [Hp _]]].
  assert (Hget : dict_get Cloudshell.DestinationType.EXPECTED_ROLES ty = None).
  { rewrite expected_roles_get.
    destruct (String.eqb_spec Cloudshell.DestinationType.BIGQUERY ty) as [<-|_];
      [|destruct (String.eqb_spec Cloudshell.DestinationType.STORAGE ty) as [<-|_];
        [|destruct (String.eqb_spec Cloudshell.DestinationType.PUBSUB ty) as [<-|_];
          [|reflexivity]]];
      destruct Hknown as [<-|[<-|[<-|[]]]];
      solve [congruence | vm_compute in Hpre; discriminate]. }
  split; [intros ->; now apply Hb|].
  split; [intros ->; now apply Hs|].
  split; [intros ->; now apply Hp|].
  split; [exact Hget|]. split.
  - intros policy w findings Hok.
    pose proof (cloudshell_findings_expected_role _ _ _ _ Hok) as Hexp.
    eapply Forall_impl; [|exact Hexp].
    intros f Hf. simpl in Hf. now rewrite Hf.
  - intros d w. eexists. split; [apply cloudshell_audit_policy_dict|].
    exact (cloudshell_findings_bindings _ _ _ _ (cloudshell_audit_policy_dict _ _ _)).
Qed.

Lemma prefix_match_without_expected_role_witness :
  Cloudshell.select_policy (scenario_world "storage.googleapis.com2/b1" None)
    "storage.googleapis.com2" "b1" "my-project"
  = Cloudshell.get_storage_policy (scenario_world "storage.googleapis.com2/b1" None) "b1"
  /\ dict_get Cloudshell.DestinationType.EXPECTED_ROLES "storage.googleapis.com2" = None
  /\ exists findings,
       Cloudshell.audit_policy (PyDict storage_scenario_policy)
         "writerIdentity" "storage.googleapis.com2" = Ok findings
       /\ Forall (fun f => Cloudshell.expected_role f = None) findings
       /\ map finding_binding findings = granted "writerIdentity" storage_scenario_policy.
Proof.
  assert (Hin : In Cloudshell.DestinationType.STORAGE
                  [ Cloudshell.DestinationType.BIGQUERY;
                    Cloudshell.DestinationType.STORAGE;
                    Cloudshell.DestinationType.PUBSUB ]) by (simpl; auto).
  assert (Hne : "storage.googleapis.com2" <> Cloudshell.DestinationType.STORAGE)
    by discriminate.
  destruct (prefix_match_without_expected_role
              (scenario_world "storage.googleapis.com2/b1" None)
              Cloudshell.DestinationType.STORAGE
              "storage.googleapis.com2" "b1" "my-project" Hin eq_refl Hne)
    as [_ [Hs [_ [Hget [Hall Hex]]]]].
  split; [now apply Hs|]. split; [exact Hget|].
  destruct (Hex storage_scenario_policy "writerIdentity") as [findings [Hok Hb]].
  exists findings. split; [exact Hok|]. split; [|exact Hb].
  exact (Hall _ _ _ Hok).
Defined.



(** ** Credentials *)

(** C8, as stated, fails on the standalone script: with the credential
    variable unset it prints its instruction and returns, so the exit
    status is 0. *)
Lemma credentials_guard_counterexample :
  ~ fails_fast_without_credentials Standalone.main
      (scenario_world "storage.googleapis.com/b1" None) scenario_args
  /\ exit_status
       (fst (run (Standalone.main (scenario_world "storage.googleapis.com/b1" None)
                    scenario_args))) = 0%Z.
Proof.
  split.
  - intros H. destruct (H eq_refl) as [_ [_ Hexit]]. apply Hexit. reflexivity.
  - reflexivity.
Qed.

(** C8, amended.  In the standalone script, when the credential variable is
    unset or empty, [main] sends no request at all, prints the instruction
    to set the variable, audits nothing and returns, so the exit status is
    0.  The cloudshell script has no check of its own: want of credentials
    shows when building the logging client raises, and then the run sends
    no request, prints no line, audits nothing and ends in [sys.exit] with
    the exception's message after "Unexpected error: " (after "Error: " for
    a [ValueError], and with the sink-not-found message for a [NotFound]),
    so the exit status is 1. *)
Theorem credentials_guard (W : World) (args : Args) :
  (getenv W "GOOGLE_APPLICATION_CREDENTIALS" = None
   \/ getenv W "GOOGLE_APPLICATION_CREDENTIALS" = Some EmptyString ->
   run (Standalone.main W args)
   = (Ok tt,
      [Print "Please set the GOOGLE_APPLICATION_CREDENTIALS environment variable to your service account key."])
   /\ requests (snd (run (Standalone.main W args))) = []
   /\ exit_status (fst (run (Standalone.main W args))) = 0%Z)
  /\ (forall e,
         logging_client W (arg_project_id args) = Raise e ->
         is_Exception e = true ->
         snd (run (Cloudshell.main W args)) = []
         /\ exit_status (fst (run (Cloudshell.main W args))) = 1%Z
         /\ (is_NotFound e = false -> is_ValueError e = false ->
             fst (run (Cloudshell.main W args))
             = Raise (SystemExit ("Unexpected error: " ++ exn_str e)))
         /\ (is_ValueError e = true ->
             fst (run (Cloudshell.main W args))
             = Raise (SystemExit ("Error: " ++ exn_str e)))
         /\ (is_NotFound e = true ->
             fst (run (Cloudshell.main W args))
             = Raise (SystemExit ("Error: Sink '" ++ arg_sink_name args
                                  ++ "' not found in project '"
                                  ++ arg_project_id args ++ "'")))).
Proof.
  split.
  - intros Henv.
    assert (Hmiss : Standalone.env_missing W "GOOGLE_APPLICATION_CREDENTIALS" = true).
    { unfold Standalone.env_missing. now destruct Henv as [-> | ->]. }
    assert (Hrun : run (Standalone.main W args)
                   = (Ok tt,
                      [Print "Please set the GOOGLE_APPLICATION_CREDENTIALS environment variable to your service account key."])).
    { unfold run, Standalone.main. now rewrite Hmiss. }
    rewrite Hrun. repeat split.
  - intros e Hclient Hexn.
    unfold run, Cloudshell.main, try_except, Cloudshell.main_body.
    unfold bind at 1, Cloudshell.get_writer_identity, try_except.
    unfold bind at 1, lift at 1. rewrite Hclient.
    destruct e; try discriminate Hexn; simpl;
      (split; [reflexivity|]); (split; [reflexivity|]);
      repeat split; intros; try discriminate; reflexivity.
Qed.

Lemma credentials_guard_witness :
  (run (Standalone.main (scenario_world "storage.googleapis.com/b1" None) scenario_args)
   = (Ok tt,
      [Print "Please set the GOOGLE_APPLICATION_CREDENTIALS environment variable to your service account key."])
   /\ requests
        (snd (run (Standalone.main (scenario_world "storage.googleapis.com/b1" None)
                     scenario_args))) = []
   /\ exit_status
        (fst (run (Standalone.main (scenario_world "storage.googleapis.com/b1" None)
                     scenario_args))) = 0%Z)
  /\ (snd (run (Cloudshell.main
                  (clientless_world (OtherError "Could not determine credentials"))
                  scenario_args)) = []
      /\ exit_status
           (fst (run (Cloudshell.main
                        (clientless_world (OtherError "Could not determine credentials"))
                        scenario_args))) = 1%Z
      /\ fst (run (Cloudshell.main
                     (clientless_world (OtherError "Could not determine credentials"))
                     scenario_args))
         = Raise (SystemExit ("Unexpected error: "
                              ++ "Could not determine credentials"))).
Proof.
  split.
  - apply (proj1 (credentials_guard (scenario_world "storage.googleapis.com/b1" None)
                    scenario_args)).
    left. reflexivity.
  - destruct (proj2 (credentials_guard
                       (clientless_world (OtherError "Could not determine credentials"))
                       scenario_args)
                (OtherError "Could not determine credentials") eq_refl eq_refl)
      as [Htrace [Hexit [Hmsg _]]].
    split; [exact Htrace|]. split; [exact Hexit|]. exact (Hmsg eq_refl eq_refl).
Defined.

(** ** The store *)

Section StoreFacts.
Import Store.
Local Open Scope list_scope.

Lemma deref_lt (h : heap) (l : loc) (c : cell) :
  deref h l = Some c -> l < List.length h.
Proof.
  unfold deref. intros H. apply nth_error_Some. congruence.
Qed.

Lemma deref_app (h h' : heap) (l : loc) (c : cell) :
  deref h l = Some c -> deref (h ++ h') l = Some c.
Proof.
  intros H. unfold deref in *.
  rewrite nth_error_app1; [assumption | now apply (deref_lt h l c)].
Qed.

Lemma deref_alloc (h : heap) (c : cell) :
  deref (h ++ [c]) (List.length h) = Some c.
Proof.
  unfold deref. rewrite nth_error_app2 by lia.
  now rewrite Nat.sub_diag.
Qed.

Lemma update_length (h : heap) (l : loc) (c : cell) :
  List.length (update h l c) = List.length h.
Proof.
  revert l. induction h as [|c0 h IH]; intros [|l]; simpl; auto.
Qed.

Lemma deref_update_eq (h : heap) (l : loc) (c : cell) :
  l < List.length h -> deref (update h l c) l = Some c.
Proof.
  unfold deref. revert l. induction h as [|c0 h IH]; intros [|l]; simpl; intros Hl;
    try lia; [reflexivity | apply IH; lia].
Qed.

Lemma deref_update_neq (h : heap) (l l' : loc) (c : cell) :
  l <> l' -> deref (update h l c) l' = deref h l'.
Proof.
  unfold deref. revert l l'.
  induction h as [|c0 h IH]; intros [|l] [|l'] Hne; simpl; try reflexivity;
    [congruence | apply IH; congruence].
Qed.

Lemma preserves_refl (h : heap) : preserves h h.
Proof. intros l c H. exact H. Qed.

Lemma preserves_trans (h1 h2 h3 : heap) :
  preserves h1 h2 -> preserves h2 h3 -> preserves h1 h3.
Proof. intros H12 H23 l c H. apply H23, H12, H. Qed.

Lemma preserves_alloc (h : heap) (c : cell) : preserves h (h ++ [c]).
Proof. intros l c0 H. now apply deref_app. Qed.

Lemma holds_finding_preserved (h h' : heap) l f :
  preserves h h' -> holds_finding h l f -> holds_finding h' l f.
Proof.
  intros Hp [m [Hl Hm]]. exists m. split; now apply Hp.
Qed.

Lemma holds_dict_preserved (h h' : heap) l d :
  preserves h h' -> holds_dict h l d -> holds_dict h' l d.
Proof.
  intros Hp [entries [Hl Hall]]. exists entries. split; [now apply Hp|].
  eapply Forall2_impl; [|exact Hall].
  intros e kv [Hk Hm]. split; [assumption | now apply Hp].
Qed.

Lemma holds_mapping_preserved (h h' : heap) l d :
  preserves h h' -> holds_mapping h l d -> holds_mapping h' l d.
Proof.
  intros Hp [entries [attrs [Hl Hall]]]. exists entries, attrs.
  split; [now apply Hp|].
  eapply Forall2_impl; [|exact Hall].
  intros e kv [Hk Hm]. split; [assumption | now apply Hp].
Qed.

Lemma holds_attr_preserved (h h' : heap) l v :
  preserves h h' -> holds_attr h l v -> holds_attr h' l v.
Proof.
  intros Hp. destruct v as [d|vattrs|d vattrs]; simpl.
  - now apply holds_dict_preserved.
  - intros [attrs Hl]. exists attrs. now apply Hp.
  - now apply holds_mapping_preserved.
Qed.

Lemma holds_policy_preserved (h h' : heap) l v :
  preserves h h' -> holds_policy h l v -> holds_policy h' l v.
Proof.
  intros Hp.
  assert (Hattrs : forall (attrs : list (string * loc))
                          (vattrs : list (string * pyval)),
             Forall2 (fun a va => fst a = fst va /\ holds_attr h (snd a) (snd va))
               attrs vattrs ->
             Forall2 (fun a va => fst a = fst va /\ holds_attr h' (snd a) (snd va))
               attrs vattrs).
  { intros attrs vattrs Hall. eapply Forall2_impl; [|exact Hall].
    intros a va [Hk Hv]. split; [assumption|].
    now apply (holds_attr_preserved h). }
  destruct v as [d|vattrs|d vattrs]; simpl.
  - now apply holds_dict_preserved.
  - intros [attrs [Hl Hall]]. exists attrs. split; [now apply Hp|].
    now apply Hattrs.
  - intros [entries [attrs [Hl [Hent Hall]]]]. exists entries, attrs.
    split; [now apply Hp|]. split; [|now apply Hattrs].
    eapply Forall2_impl; [|exact Hent].
    intros e kv [Hk Hm]. split; [assumption | now apply Hp].
Qed.

Lemma read_all_held (h : heap) (ls : list loc) (fs : list Cloudshell.AuditFinding) :
  Forall2 (holds_finding h) ls fs -> read_all h ls = Some fs.
Proof.
  induction 1 as [|l f ls fs [m [Hl Hm]] _ IH]; simpl; [reflexivity|].
  unfold read_finding. rewrite Hl, Hm, IH. now destruct f.
Qed.

(** The loop over entries that the base store [h0] holds, run on a later
    store [h] whose list under construction sits at [fl], beyond [h0]. *)
Lemma audit_loop_held (h0 : heap) (w : string) (exp : option string) (fl : loc)
    (entries : list (string * loc)) (d : dict (list string)) :
  List.length h0 <= fl ->
  Forall2 (fun e kv => fst e = fst kv
                       /\ deref h0 (snd e) = Some (CMembers (snd kv)))
    entries d ->
  forall (h : heap) (elems : list loc),
    preserves h0 h ->
    deref h fl = Some (CList elems) ->
    exists h' new,
      audit_loop entries w exp fl h = (Ok tt, h')
      /\ (forall l c, l <> fl -> deref h l = Some c -> deref h' l = Some c)
      /\ List.length h <= List.length h'
      /\ deref h' fl = Some (CList (elems ++ new))
      /\ Forall2 (holds_finding h') new
           (map (fun rm => {| Cloudshell.role := fst rm;
                              Cloudshell.members := snd rm;
                              Cloudshell.expected_role := exp |})
                (granted w d)).
Proof.
  intros Hfl Hall.
  induction Hall as [|[r ml] [r' ms] entries d [Hr Hml] _ IH]; intros h elems Hp Hlist.
  - exists h, []. simpl. rewrite app_nil_r. repeat split; auto; constructor.
  - simpl in Hr, Hml. subst r'.
    simpl audit_loop. unfold py_in. rewrite (Hp _ _ Hml).
    unfold granted. simpl filter. fold (granted w d).
    destruct (contains w ms) eqn:Hin.
    + unfold alloc, append.
      rewrite (deref_app _ [CFinding r ml exp] _ _ Hlist).
      set (c := CFinding r ml exp).
      set (h2 := update (h ++ [c]) fl (CList (elems ++ [List.length h]))).
      pose proof (deref_lt _ _ _ Hlist) as Hfl_lt.
      assert (Hstep : forall l c0, l <> fl ->
                deref (h ++ [c]) l = Some c0 -> deref h2 l = Some c0).
      { intros l c0 Hne H. unfold h2. rewrite deref_update_neq; auto. }
      assert (Hp2 : preserves h0 h2).
      { intros l c0 H. apply Hstep.
        - apply deref_lt in H. lia.
        - apply deref_app. now apply Hp. }
      assert (Hlist2 : deref h2 fl = Some (CList (elems ++ [List.length h]))).
      { unfold h2. apply deref_update_eq. rewrite length_app. simpl. lia. }
      destruct (IH h2 _ Hp2 Hlist2) as [h' [new [Hrun [Hframe [Hlen [Hfl' Hnew]]]]]].
      exists h', (List.length h :: new).
      split; [exact Hrun|]. split; [|split; [|split]].
      * intros l c0 Hne H. apply Hframe; [assumption|].
        apply Hstep; [assumption | now apply deref_app].
      * unfold h2 in Hlen. rewrite update_length, length_app in Hlen. simpl in Hlen. lia.
      * rewrite Hfl', <- app_assoc. reflexivity.
      * simpl map. constructor; [|exact Hnew].
        exists ml. simpl. split.
        -- apply Hframe; [lia|]. apply Hstep; [lia|]. apply deref_alloc.
        -- apply Hframe; [apply deref_lt in Hml; lia|]. now apply Hp2.
    + destruct (IH h elems Hp Hlist) as [h' [new [Hrun [Hframe [Hlen [Hfl' Hnew]]]]]].
      exists h', new. repeat split; assumption.
Qed.
Lemma assoc_attr_lookup (h : heap) attrs vattrs (name : string) :
  Forall2 (fun a va => fst a = fst va /\ holds_attr h (snd a) (snd va))
    attrs vattrs ->
  match attr_lookup vattrs name with
  | Some v => exists l, assoc attrs name = Some l /\ holds_attr h l v
  | None => assoc attrs name = None
  end.
Proof.
  induction 1 as [|[k l] [k' v] attrs vattrs [Hk Hv] _ IH]; simpl; [reflexivity|].
  simpl in Hk, Hv. subst k'.
  destruct (String.eqb k name); [|exact IH].
  exists l. split; [reflexivity | exact Hv].
Qed.

(** The entries [items] gives at [b] are those of the mapping [d]. *)
Lemma holds_attr_items (h : heap) (b : loc) (v : pyval) :
  holds_attr h b v ->
  match value_items v with
  | Ok d =>
      exists entries,
        items h b = Ok entries
        /\ Forall2 (fun e kv => fst e = fst kv
                                /\ deref h (snd e) = Some (CMembers (snd kv)))
             entries d
  | Raise e => items h b = Raise e
  end.
Proof.
  unfold value_items, items. destruct v as [d|vattrs|d vattrs]; simpl.
  - intros [entries [Hd Hall]]. exists entries. rewrite Hd. now split.
  - intros [attrs Hd]. now rewrite Hd.
  - intros [entries [attrs [Hd Hall]]]. exists entries. rewrite Hd. now split.
Qed.

Lemma items_app (h h' : heap) (b : loc) entries :
  items h b = Ok entries -> items (h ++ h') b = Ok entries.
Proof.
  unfold items. destruct (deref h b) as [c|] eqn:Hd; [|discriminate].
  now rewrite (deref_app _ h' _ _ Hd).
Qed.

Lemma items_app_raise (h h' : heap) (b : loc) c e :
  deref h b = Some c -> items h b = Raise e -> items (h ++ h') b = Raise e.
Proof.
  unfold items. intros Hd. now rewrite (deref_app _ h' _ _ Hd), Hd.
Qed.

Lemma holds_attr_deref (h : heap) (b : loc) (v : pyval) :
  holds_attr h b v -> exists c, deref h b = Some c.
Proof.
  destruct v as [d|vattrs|d vattrs]; simpl.
  - intros [entries [Hd _]]. eauto.
  - intros [attrs Hd]. eauto.
  - intros [entries [attrs [Hd _]]]. eauto.
Qed.

Lemma holds_policy_attr (h : heap) (p : loc) (v : pyval) :
  holds_policy h p v -> holds_attr h p v.
Proof.
  destruct v as [d|vattrs|d vattrs]; simpl.
  - auto.
  - intros [attrs [Hd _]]. eauto.
  - intros [entries [attrs [Hd [Hall _]]]]. exists entries, attrs. now split.
Qed.

(** What [get_bindings] gives on a store that holds the policy [v] is held
    as what [getattr] gives on [v]. *)
Lemma get_bindings_held (h h' : heap) (p : loc) (v : pyval) :
  holds_policy h p v ->
  holds_attr h (get_bindings (h ++ h') p) (getattr_default v "bindings" v).
Proof.
  intros Hv. pose proof (holds_policy_attr h p v Hv) as Hself.
  assert (Hlook : forall (attrs : list (string * loc))
                         (vattrs : list (string * pyval)),
             deref h p = Some (CObject attrs)
             \/ (exists entries, deref h p = Some (CMapping entries attrs)) ->
             Forall2 (fun a va => fst a = fst va /\ holds_attr h (snd a) (snd va))
               attrs vattrs ->
             holds_attr h (get_bindings (h ++ h') p)
               match attr_lookup vattrs "bindings" with
               | Some v' => v'
               | None => v
               end).
  { intros attrs vattrs Hd Hall.
    pose proof (assoc_attr_lookup h attrs vattrs "bindings" Hall) as Hl.
    assert (Hget : get_bindings (h ++ h') p
                   = match assoc attrs "bindings" with Some l => l | None => p end).
    { unfold get_bindings.
      destruct Hd as [Hd|[entries Hd]]; now rewrite (deref_app _ h' _ _ Hd). }
    rewrite Hget.
    destruct (attr_lookup vattrs "bindings") as [v'|].
    - destruct Hl as [l [-> Hv']]. exact Hv'.
    - rewrite Hl. exact Hself. }
  destruct v as [d|vattrs|d vattrs]; simpl in *.
  - destruct Hv as [entries [Hd Hall]].
    unfold get_bindings. rewrite (deref_app _ h' _ _ Hd).
    exists entries. now split.
  - destruct Hv as [attrs [Hd Hall]]. apply (Hlook attrs vattrs); auto.
  - destruct Hv as [entries [attrs [Hd [Hent Hall]]]].
    apply (Hlook attrs vattrs); eauto.
Qed.

(** A call whose bindings are a mapping held by the store. *)
Lemma audit_policy_from_dict (h : heap) (p : loc) (entries : list (string * loc))
    (d : dict (list string)) (w t : string) :
  items (h ++ [CList []]) (get_bindings (h ++ [CList []]) p) = Ok entries ->
  Forall2 (fun e kv => fst e = fst kv
                       /\ deref h (snd e) = Some (CMembers (snd kv)))
    entries d ->
  exists h' new,
    audit_policy p w t h = (Ok (List.length h), h')
    /\ preserves h h'
    /\ List.length h < List.length h'
    /\ deref h' (List.length h) = Some (CList new)
    /\ Forall2 (holds_finding h') new
         (map (fun rm => {| Cloudshell.role := fst rm;
                            Cloudshell.members := snd rm;
                            Cloudshell.expected_role :=
                              dict_get Cloudshell.DestinationType.EXPECTED_ROLES t |})
              (granted w d)).
Proof.
  intros Hit Hall.
  unfold audit_policy, alloc. rewrite Hit.
  destruct (audit_loop_held h w
              (dict_get Cloudshell.DestinationType.EXPECTED_ROLES t)
              (List.length h) entries d (le_n _) Hall
              (h ++ [CList []]) [] (preserves_alloc _ _) (deref_alloc _ _))
    as [h' [new [Hrun [Hframe [Hlen [Hfl Hnew]]]]]].
  rewrite Hrun. exists h', new.
  split; [reflexivity|]. split; [|split; [|split]].
  - intros l c H. apply Hframe.
    + apply deref_lt in H. lia.
    + now apply deref_app.
  - rewrite length_app in Hlen. simpl in Hlen. lia.
  - exact Hfl.
  - exact Hnew.
Qed.

(** A call that finds no mapping raises as the auditor over values does. *)
Lemma audit_policy_no_items (h : heap) (p : loc) (w t : string) (e : exn) :
  items (h ++ [CList []]) (get_bindings (h ++ [CList []]) p) = Raise e ->
  audit_policy p w t h = (Raise e, h ++ [CList []]).
Proof.
  intros Hit. unfold audit_policy, alloc. now rewrite Hit.
Qed.

(** One call on a store that holds the policy [v]: it does what the
    auditor over values does on [v], the new list sits at the old end of
    the store, and nothing that was in the store changes. *)
Lemma audit_policy_run (h : heap) (p : loc) (v : pyval) (w t : string) :
  holds_policy h p v ->
  exists r h',
    audit_policy p w t h = (r, h')
    /\ preserves h h'
    /\ List.length h < List.length h'
    /\ match Cloudshell.audit_policy v w t with
       | Ok fs =>
           r = Ok (List.length h)
           /\ exists new, deref h' (List.length h) = Some (CList new)
                          /\ Forall2 (holds_finding h') new fs
       | Raise e => r = Raise e
       end.
Proof.
  intros Hv.
  pose proof (get_bindings_held h [CList []] p v Hv) as Hb.
  pose proof (holds_attr_deref _ _ _ Hb) as [c Hc].
  pose proof (holds_attr_items _ _ _ Hb) as Hit.
  rewrite cloudshell_audit_policy_items.
  destruct (value_items (getattr_default v "bindings" v)) as [d|e].
  - destruct Hit as [entries [Hit Hall]].
    destruct (audit_policy_from_dict h p entries d w t
                (items_app _ _ _ _ Hit) Hall)
      as [h' [new [Hrun [Hp [Hlen [Hfl Hnew]]]]]].
    exists (Ok (List.length h)), h'. repeat split; try assumption.
    exists new. split; assumption.
  - exists (Raise e), (h ++ [CList []]).
    split; [apply audit_policy_no_items; now apply (items_app_raise _ _ _ c)|].
    split; [apply preserves_alloc|]. split; [|reflexivity].
    rewrite length_app. simpl. lia.
Qed.

(** C7.  On a store that holds the policy, two calls of [audit_policy] with
    the same arguments, one after the other, both raise the same exception
    or both return a list of findings; the two lists are two objects and,
    read back from the final store, have the same content in the same
    order: the findings of the auditor over values. *)
Theorem audit_policy_twice_same_findings
    (h : heap) (p : loc) (v : pyval) (writer_identity destination_type : string) :
  holds_policy h p v ->
  exists r1 h1 r2 h2,
    audit_policy p writer_identity destination_type h = (r1, h1)
    /\ audit_policy p writer_identity destination_type h1 = (r2, h2)
    /\ match Cloudshell.audit_policy v writer_identity destination_type with
       | Ok findings =>
           exists l1 l2,
             r1 = Ok l1 /\ r2 = Ok l2 /\ l1 <> l2
             /\ read_findings h2 l1 = Some findings
             /\ read_findings h2 l2 = Some findings
       | Raise e => r1 = Raise e /\ r2 = Raise e
       end.
Proof.
  intros Hv.
  destruct (audit_policy_run h p v writer_identity destination_type Hv)
    as [r1 [h1 [Hrun1 [Hp1 [Hlen1 Hres1]]]]].
  pose proof (holds_policy_preserved h h1 p v Hp1 Hv) as Hv1.
  destruct (audit_policy_run h1 p v writer_identity destination_type Hv1)
    as [r2 [h2 [Hrun2 [Hp2 [Hlen2 Hres2]]]]].
  exists r1, h1, r2, h2. split; [exact Hrun1|]. split; [exact Hrun2|].
  destruct (Cloudshell.audit_policy v writer_identity destination_type) as [fs|e].
  - destruct Hres1 as [-> [new1 [Hl1 Hnew1]]].
    destruct Hres2 as [-> [new2 [Hl2 Hnew2]]].
    exists (List.length h), (List.length h1).
    split; [reflexivity|]. split; [reflexivity|]. split; [lia|]. split.
    + unfold read_findings. rewrite (Hp2 _ _ Hl1).
      apply read_all_held.
      eapply Forall2_impl; [|exact Hnew1].
      intros l f. now apply holds_finding_preserved.
    + unfold read_findings. rewrite Hl2. now apply read_all_held.
  - now split.
Qed.
End StoreFacts.

Lemma audit_policy_twice_same_findings_witness :
  exists r1 h1 r2 h2,
    Store.audit_policy 2 "writerIdentity" "storage.googleapis.com"
      Store.storage_scenario_heap = (r1, h1)
    /\ Store.audit_policy 2 "writerIdentity" "storage.googleapis.com" h1 = (r2, h2)
    /\ match Cloudshell.audit_policy (PyDict storage_scenario_policy)
               "writerIdentity" "storage.googleapis.com" with
       | Ok findings =>
           exists l1 l2,
             r1 = Ok l1 /\ r2 = Ok l2 /\ l1 <> l2
             /\ Store.read_findings h2 l1 = Some findings
             /\ Store.read_findings h2 l2 = Some findings
       | Raise e => r1 = Raise e /\ r2 = Raise e
       end.
Proof.
  apply (audit_policy_twice_same_findings Store.storage_scenario_heap 2
           (PyDict storage_scenario_policy)).
  simpl. exists [("roles/storage.objectCreator", 0); ("roles/storage.admin", 1)].
  split; [reflexivity|].
  repeat constructor.
Defined.

(** * Further properties of the two scripts *)

(** ** More on the destination parser *)

Lemma split_length_has_char (sep : ascii) (s : string) :
  has_char sep s = true <-> 2 <= List.length (split sep s).
Proof.
  induction s as [|c s IH]; simpl.
  - split; [discriminate | lia].
  - pose proof (split_length_pos sep s) as Hpos.
    destruct (Ascii.eqb c sep); simpl.
    + split; [lia | reflexivity].
    + rewrite IH. destruct (split sep s) as [|seg segs]; simpl in *; lia.
Qed.

Lemma Forall_last {A} (P : A -> Prop) (l : list A) (d : A) :
  l <> [] -> Forall P l -> P (last l d).
Proof.
  intros Hne Hall. induction Hall as [|x l Hx Hl IH]; [congruence|].
  destruct l as [|y l]; [exact Hx|]. apply IH. discriminate.
Qed.

(** The parser in closed form, without the intermediate indexing. *)
Lemma get_destination_info_closed_form (destination : string) :
  Cloudshell.get_destination_info destination
  = let parts := split slash destination in
    if (List.length parts <? 2)%nat then
      Raise (ValueError ("Invalid destination format: " ++ destination))
    else Ok (nth 0 parts EmptyString, last parts EmptyString,
             if (2 <? List.length parts)%nat
             then Some (nth 2 parts EmptyString) else None).
Proof.
  unfold Cloudshell.get_destination_info. cbv zeta.
  pose proof (split_not_nil slash destination) as Hne.
  pose proof (split_length_pos slash destination) as Hpos.
  pose proof (getitem_nat (split slash destination) 0 EmptyString) as H0.
  pose proof (getitem_nat (split slash destination) 2 EmptyString) as H2.
  simpl Z.of_nat in H0, H2.
  rewrite H0 by lia. simpl rbind.
  destruct (Nat.ltb_spec (List.length (split slash destination)) 2) as [_|_];
    [reflexivity|].
  rewrite (getitem_last _ EmptyString Hne). simpl rbind.
  destruct (Nat.ltb_spec 2 (List.length (split slash destination))) as [Hgt|_];
    [|reflexivity].
  now rewrite H2 by lia.
Qed.

Lemma get_destination_info_no_slash (destination : string) :
  has_char slash destination = false ->
  Cloudshell.get_destination_info destination
  = Raise (ValueError ("Invalid destination format: " ++ destination)).
Proof.
  intros Hno. rewrite get_destination_info_closed_form. cbv zeta.
  destruct (Nat.ltb_spec (List.length (split slash destination)) 2) as [_|Hge];
    [reflexivity|].
  apply split_length_has_char in Hge. congruence.
Qed.

(** X1.  [get_destination_info] returns exactly when the destination holds
    a "/"; without one it raises the invalid-format [ValueError], the empty
    string included. *)
Theorem get_destination_info_ok_iff_slash (destination : string) :
  ((exists info, Cloudshell.get_destination_info destination = Ok info)
   <-> has_char slash destination = true)
  /\ (has_char slash destination = false ->
      Cloudshell.get_destination_info destination
      = Raise (ValueError ("Invalid destination format: " ++ destination))).
Proof.
  rewrite get_destination_info_closed_form. cbv zeta.
  pose proof (split_length_has_char slash destination) as Hiff.
  destruct (Nat.ltb_spec (List.length (split slash destination)) 2) as [Hlt|Hge].
  - assert (Hno : has_char slash destination = false).
    { destruct (has_char slash destination); [|reflexivity].
      assert (2 <= List.length (split slash destination)) by now apply Hiff.
      lia. }
    split; [|reflexivity]. rewrite Hno. split; [|discriminate].
    intros [info H]. discriminate.
  - assert (Hyes : has_char slash destination = true) by now apply Hiff.
    rewrite Hyes. split; [|discriminate]. split; [reflexivity|].
    intros _. eexists. reflexivity.
Qed.

Lemma get_destination_info_ok_iff_slash_witness :
  Cloudshell.get_destination_info EmptyString
  = Raise (ValueError ("Invalid destination format: " ++ EmptyString)).
Proof.
  apply (proj2 (get_destination_info_ok_iff_slash EmptyString)). reflexivity.
Defined.

(** X2.  What [get_destination_info] returns is cut out of the destination:
    type, resource name and project hold no "/"; with no project the
    destination is the type, a "/" and the resource name; with a project
    the destination is the join of at least three segments, none of which
    holds a "/", the first being the type, the third the project and the
    last the resource name. *)
Theorem get_destination_info_parts (destination ty name : string)
    (project : option string) :
  Cloudshell.get_destination_info destination = Ok (ty, name, project) ->
  sep_free slash ty
  /\ sep_free slash name
  /\ match project with
     | None => destination = ty ++ "/" ++ name
     | Some p =>
         sep_free slash p
         /\ exists second rest,
             destination = String.concat "/" (ty :: second :: p :: rest)
             /\ Forall (sep_free slash) (ty :: second :: p :: rest)
             /\ name = last (p :: rest) EmptyString
     end.
Proof.
  rewrite get_destination_info_closed_form. cbv zeta.
  pose proof (split_segments_sep_free slash destination) as Hfree.
  pose proof (concat_split slash destination) as Hjoin.
  destruct (split slash destination) as [|a [|b [|c rest]]] eqn:E; simpl;
    try discriminate; intros H; injection H as <- <- <-.
  - inversion Hfree as [|? ? Ha Hb]; subst. inversion Hb; subst.
    split; [assumption|]. split; [assumption|]. reflexivity.
  - inversion Hfree as [|? ? Ha Hb]; subst.
    inversion Hb as [|? ? Hb' Hc]; subst. inversion Hc as [|? ? Hc' Hr]; subst.
    split; [assumption|]. split.
    + apply (Forall_last (sep_free slash) (c :: rest) EmptyString);
        [discriminate | assumption].
    + split; [assumption|]. exists b, rest.
      split; [reflexivity|]. split; [|reflexivity].
      repeat (constructor; [assumption|]). assumption.
Qed.

Lemma get_destination_info_parts_witness :
  sep_free slash "bigquery.googleapis.com"
  /\ sep_free slash "d1"
  /\ sep_free slash "p1"
  /\ exists second rest,
      "bigquery.googleapis.com/projects/p1/datasets/d1"
      = String.concat "/" ("bigquery.googleapis.com" :: second :: "p1" :: rest)
      /\ Forall (sep_free slash) ("bigquery.googleapis.com" :: second :: "p1" :: rest)
      /\ "d1" = last ("p1" :: rest) EmptyString.
Proof.
  apply (get_destination_info_parts
           "bigquery.googleapis.com/projects/p1/datasets/d1"
           "bigquery.googleapis.com" "d1" (Some "p1")).
  reflexivity.
Defined.

(** ** The two auditors *)

(** X3.  The cloudshell auditor is the standalone auditor applied to what
    [getattr(policy, 'bindings', policy)] gives: the same roles and members
    in the same order, and the same exception when there is no mapping. *)
Theorem auditors_agree (policy : pyval) (writer_identity destination_type : string) :
  Standalone.audit_policy (getattr_default policy "bindings" policy) writer_identity
  = match Cloudshell.audit_policy policy writer_identity destination_type with
    | Ok findings => Ok (map finding_binding findings)
    | Raise e => Raise e
    end.
Proof.
  unfold Standalone.audit_policy, Cloudshell.audit_policy.
  destruct (items (getattr_default policy "bindings" policy)) as [its|e]; simpl;
    [|reflexivity].
  rewrite standalone_audit_loop_spec, cloudshell_audit_loop_spec. simpl.
  rewrite map_map. unfold finding_binding. simpl. f_equal.
  induction (granted writer_identity its) as [|[r ms] l IH]; simpl;
    [reflexivity | now rewrite <- IH].
Qed.

(** ** Runs of the cloudshell script that fail *)

Section CloudshellFailures.
Variable W : World.
Variable args : Args.

Lemma cloudshell_main_body_client_raises (e : exn) :
  logging_client W (arg_project_id args) = Raise e ->
  Cloudshell.main_body W args []
  = (Raise (if is_NotFound e
            then ValueError ("Sink '" ++ arg_sink_name args ++ "' not found in project '"
                             ++ arg_project_id args ++ "'")
            else e),
     []).
Proof.
  intros H. unfold Cloudshell.main_body, bind at 1.
  unfold Cloudshell.get_writer_identity, try_except, bind, emit, lift, raise.
  rewrite H. now destruct (is_NotFound e).
Qed.

Lemma cloudshell_main_body_sink_raises client (e : exn) :
  logging_client W (arg_project_id args) = Ok client ->
  client (arg_sink_name args) = Raise e ->
  Cloudshell.main_body W args []
  = (Raise (if is_NotFound e
            then ValueError ("Sink '" ++ arg_sink_name args ++ "' not found in project '"
                             ++ arg_project_id args ++ "'")
            else e),
     [SinkReload (arg_sink_name args) (arg_project_id args)]).
Proof.
  intros Hc H. unfold Cloudshell.main_body, bind at 1.
  unfold Cloudshell.get_writer_identity, try_except, bind, emit, lift, raise.
  rewrite Hc, H. simpl. now destruct (is_NotFound e).
Qed.

Lemma cloudshell_main_body_parsed (w d : string) :
  sink_reload W (arg_sink_name args) (arg_project_id args) = Ok (w, d) ->
  Cloudshell.main_body W args []
  = bind (lift (Cloudshell.get_destination_info d))
      (fun info =>
         let '(dest_type, resource_name, dest_project) := info in
         bind (Cloudshell.select_policy W dest_type resource_name
                 (py_or dest_project (arg_project_id args)))
           (fun policy =>
              bind (lift (Cloudshell.audit_policy policy w dest_type))
                (Cloudshell.report W)))
      (prelude args w d).
Proof.
  intros H. unfold Cloudshell.main_body. unfold bind at 1.
  rewrite (cloudshell_get_writer_identity_ok W _ _ _ _ H).
  unfold bind at 1, print at 1, emit.
  unfold bind at 1, print at 1, emit. reflexivity.
Qed.

Lemma cloudshell_main_of_body (t : trace) :
  Cloudshell.main W args t
  = match Cloudshell.main_body W args t with
    | (Ok a, t') => (Ok a, t')
    | (Raise e, t') =>
        (Raise (if is_ValueError e then SystemExit ("Error: " ++ exn_str e)
                else if is_Exception e
                     then SystemExit ("Unexpected error: " ++ exn_str e)
                     else e),
         t')
    end.
Proof.
  unfold Cloudshell.main, try_except.
  destruct (Cloudshell.main_body W args t) as [[a|e] t']; [reflexivity|].
  destruct e; reflexivity.
Qed.

(** X5.  When the sink lookup fails, the logging client being built and
    the reload of the sink raising, the cloudshell run ends after that one
    request, having printed nothing: a [NotFound] gives the sink-not-found
    message, a [ValueError] its own message after "Error: ", any other
    exception that derives from [Exception] its message after
    "Unexpected error: ", and an exception outside [Exception] leaves
    [main] as it is. *)
Theorem cloudshell_sink_failure client (e : exn) :
  logging_client W (arg_project_id args) = Ok client ->
  client (arg_sink_name args) = Raise e ->
  snd (run (Cloudshell.main W args)) = [SinkReload (arg_sink_name args) (arg_project_id args)]
  /\ (is_NotFound e = true ->
      fst (run (Cloudshell.main W args))
      = Raise (SystemExit ("Error: Sink '" ++ arg_sink_name args ++ "' not found in project '"
                           ++ arg_project_id args ++ "'")))
  /\ (is_ValueError e = true ->
      fst (run (Cloudshell.main W args))
      = Raise (SystemExit ("Error: " ++ exn_str e)))
  /\ (is_NotFound e = false -> is_ValueError e = false -> is_Exception e = true ->
      fst (run (Cloudshell.main W args))
      = Raise (SystemExit ("Unexpected error: " ++ exn_str e)))
  /\ (is_Exception e = false ->
      fst (run (Cloudshell.main W args)) = Raise e).
Proof.
  intros Hc H. unfold run. rewrite cloudshell_main_of_body.
  rewrite (cloudshell_main_body_sink_raises client e Hc H).
  split; [reflexivity|]. split; [|split; [|split]].
  - intros ->. reflexivity.
  - intros Hv. destruct e; try discriminate. reflexivity.
  - intros -> -> ->. reflexivity.
  - intros He. destruct e; try discriminate; reflexivity.
Qed.

(** X6.  When the sink resolves to a destination without "/", the
    cloudshell run ends in [sys.exit] with the invalid-format message right
    after printing the identity and the destination: no policy is
    requested. *)
Theorem cloudshell_invalid_destination_run (w d : string) :
  sink_reload W (arg_sink_name args) (arg_project_id args) = Ok (w, d) ->
  has_char slash d = false ->
  run (Cloudshell.main W args)
  = (Raise (SystemExit ("Error: Invalid destination format: " ++ d)),
     prelude args w d).
Proof.
  intros Hsink Hno. unfold run. rewrite cloudshell_main_of_body.
  rewrite (cloudshell_main_body_parsed w d Hsink).
  unfold bind at 1, lift.
  now rewrite (get_destination_info_no_slash d Hno).
Qed.
End CloudshellFailures.

Lemma cloudshell_sink_failure_witness :
  snd (run (Cloudshell.main
              (constant_world None (Raise (NotFound "404 sink"))
                 (Ok (PyDict [])) (Ok (PyDict [])) (Ok (PyDict [])))
              scenario_args))
  = [SinkReload "my-sink" "my-project"]
  /\ fst (run (Cloudshell.main
                 (constant_world None (Raise (NotFound "404 sink"))
                    (Ok (PyDict [])) (Ok (PyDict [])) (Ok (PyDict [])))
                 scenario_args))
     = Raise (SystemExit "Error: Sink 'my-sink' not found in project 'my-project'").
Proof.
  destruct (cloudshell_sink_failure
              (constant_world None (Raise (NotFound "404 sink"))
                 (Ok (PyDict [])) (Ok (PyDict [])) (Ok (PyDict [])))
              scenario_args (fun _ => Raise (NotFound "404 sink"))
              (NotFound "404 sink") eq_refl eq_refl)
    as [Htrace [Hnf _]].
  split; [exact Htrace | exact (Hnf eq_refl)].
Defined.

Lemma cloudshell_invalid_destination_run_witness :
  run (Cloudshell.main (scenario_world "storage.googleapis.com" None) scenario_args)
  = (Raise (SystemExit ("Error: Invalid destination format: "
                        ++ "storage.googleapis.com")),
     prelude scenario_args "writerIdentity" "storage.googleapis.com").
Proof.
  apply (cloudshell_invalid_destination_run
           (scenario_world "storage.googleapis.com" None) scenario_args);
    reflexivity.
Defined.

(** ** Runs of the cloudshell script past the parser *)

Section CloudshellBranches.
Variable W : World.
Variable args : Args.

Lemma cloudshell_get_storage_policy_result name (t : trace) :
  Cloudshell.get_storage_policy W name t
  = (match bucket_get_iam_policy W name with
     | Ok policy => Ok policy
     | Raise e =>
         Raise (if is_NotFound e
                then ValueError ("Storage bucket '" ++ name ++ "' not found")
                else e)
     end,
     (t ++ [BucketGetIamPolicy name])%list).
Proof.
  unfold Cloudshell.get_storage_policy, try_except, bind, emit, lift, raise.
  destruct (bucket_get_iam_policy W name) as [policy|e]; [reflexivity|].
  now destruct (is_NotFound e).
Qed.

Lemma cloudshell_get_bigquery_policy_result name (t : trace) :
  Cloudshell.get_bigquery_policy W name t
  = (match dataset_get_iam_policy W name with
     | Ok policy => Ok policy
     | Raise e =>
         Raise (if is_NotFound e
                then ValueError ("BigQuery dataset '" ++ name ++ "' not found")
                else e)
     end,
     (t ++ [DatasetGetIamPolicy name])%list).
Proof.
  unfold Cloudshell.get_bigquery_policy, try_except, bind, emit, lift, raise.
  destruct (dataset_get_iam_policy W name) as [policy|e]; [reflexivity|].
  now destruct (is_NotFound e).
Qed.

Lemma cloudshell_get_pubsub_policy_result name project (t : trace) :
  Cloudshell.get_pubsub_policy W name project t
  = (match topic_get_iam_policy W project name with
     | Ok policy => Ok policy
     | Raise e =>
         Raise (if is_NotFound e
                then ValueError ("Pub/Sub topic '" ++ name ++ "' not found")
                else e)
     end,
     (t ++ [TopicGetIamPolicy project name])%list).
Proof.
  unfold Cloudshell.get_pubsub_policy, try_except, bind, emit, lift, raise.
  destruct (topic_get_iam_policy W project name) as [policy|e]; [reflexivity|].
  now destruct (is_NotFound e).
Qed.

(** A run whose sink resolves and whose destination parses, from the
    choice of the request on. *)
Lemma cloudshell_run_parsed w d ty name proj :
  sink_reload W (arg_sink_name args) (arg_project_id args) = Ok (w, d) ->
  Cloudshell.get_destination_info d = Ok (ty, name, proj) ->
  Cloudshell.main_body W args []
  = bind (Cloudshell.select_policy W ty name (py_or proj (arg_project_id args)))
      (fun policy =>
         bind (lift (Cloudshell.audit_policy policy w ty)) (Cloudshell.report W))
      (prelude args w d).
Proof.
  intros Hsink Hparse. rewrite (cloudshell_main_body_parsed W args w d Hsink).
  unfold bind at 1, lift at 1. now rewrite Hparse.
Qed.

(** X7.  When the resource picked does not exist, the cloudshell run ends
    in [sys.exit] right after the one policy request, with a message that
    names the kind of resource and the resource. *)
Theorem cloudshell_resource_not_found w d ty name proj (e : exn) :
  sink_reload W (arg_sink_name args) (arg_project_id args) = Ok (w, d) ->
  Cloudshell.get_destination_info d = Ok (ty, name, proj) ->
  is_NotFound e = true ->
  (startswith ty Cloudshell.DestinationType.BIGQUERY = true ->
   dataset_get_iam_policy W name = Raise e ->
   run (Cloudshell.main W args)
   = (Raise (SystemExit ("Error: BigQuery dataset '" ++ name ++ "' not found")),
      (prelude args w d ++ [DatasetGetIamPolicy name])%list))
  /\ (startswith ty Cloudshell.DestinationType.STORAGE = true ->
      bucket_get_iam_policy W name = Raise e ->
      run (Cloudshell.main W args)
      = (Raise (SystemExit ("Error: Storage bucket '" ++ name ++ "' not found")),
         (prelude args w d ++ [BucketGetIamPolicy name])%list))
  /\ (startswith ty Cloudshell.DestinationType.PUBSUB = true ->
      topic_get_iam_policy W (py_or proj (arg_project_id args)) name = Raise e ->
      run (Cloudshell.main W args)
      = (Raise (SystemExit ("Error: Pub/Sub topic '" ++ name ++ "' not found")),
         (prelude args w d
          ++ [TopicGetIamPolicy (py_or proj (arg_project_id args)) name])%list)).
Proof.
  intros Hsink Hparse He.
  destruct (cloudshell_select_policy_cases W ty name (py_or proj (arg_project_id args)))
    as [Hb [Hs [Hp _]]].
  unfold run. rewrite cloudshell_main_of_body.
  rewrite (cloudshell_run_parsed w d ty name proj Hsink Hparse).
  split; [|split]; intros Hpre Hraise.
  - rewrite (Hb Hpre). unfold bind.
    rewrite cloudshell_get_bigquery_policy_result, Hraise, He. reflexivity.
  - rewrite (Hs Hpre). unfold bind.
    rewrite cloudshell_get_storage_policy_result, Hraise, He. reflexivity.
  - rewrite (Hp Hpre). unfold bind.
    rewrite cloudshell_get_pubsub_policy_result, Hraise, He. reflexivity.
Qed.

(** X8.  The project of the topic request: for a Pub/Sub destination of
    exactly two segments, and for one whose third segment is empty, it is
    the project given on the command line; otherwise it is the third
    segment.  The topic is the last segment in all cases. *)
Theorem cloudshell_topic_project w d (segs : list string) :
  sink_reload W (arg_sink_name args) (arg_project_id args) = Ok (w, d) ->
  d = String.concat "/" segs ->
  Forall (sep_free slash) segs ->
  2 <= List.length segs ->
  startswith (nth 0 segs EmptyString) Cloudshell.DestinationType.PUBSUB = true ->
  let fetched := policy_fetches (snd (run (Cloudshell.main W args))) in
  let topic := last segs EmptyString in
  (List.length segs = 2 ->
   fetched = [TopicGetIamPolicy (arg_project_id args) topic])
  /\ (2 < List.length segs -> nth 2 segs EmptyString = EmptyString ->
      fetched = [TopicGetIamPolicy (arg_project_id args) topic])
  /\ (2 < List.length segs -> nth 2 segs EmptyString <> EmptyString ->
      fetched = [TopicGetIamPolicy (nth 2 segs EmptyString) topic]).
Proof.
  intros Hsink Hd Hfree Hlen Hpre fetched topic.
  assert (Hne : segs <> []) by (destruct segs; [simpl in Hlen; lia | discriminate]).
  pose proof (get_destination_info_closed_form d) as Hparse. cbv zeta in Hparse.
  rewrite (segments_unique slash d segs Hne Hfree Hd) in Hparse.
  destruct (Nat.ltb_spec (List.length segs) 2) as [Hlt|_]; [lia|].
  assert (Hfetch : forall proj,
             Cloudshell.get_destination_info d
             = Ok (nth 0 segs EmptyString, topic, proj) ->
             fetched = [TopicGetIamPolicy (py_or proj (arg_project_id args)) topic]).
  { intros proj Hp.
    destruct (cloudshell_main_after_select W args w d _ _ _ Hsink Hp) as [lines Hrun].
    destruct (cloudshell_select_policy_cases W (nth 0 segs EmptyString) topic
                (py_or proj (arg_project_id args))) as [_ [_ [Hsel _]]].
    unfold fetched.
    rewrite Hrun, (Hsel Hpre), cloudshell_get_pubsub_policy_trace.
    now apply fetches_after_prelude. }
  destruct (Nat.ltb_spec 2 (List.length segs)) as [Hgt|Hle].
  - split; [lia|]. split; intros _ H3; rewrite (Hfetch _ Hparse); simpl.
    + now rewrite H3.
    + destruct (nth 2 segs EmptyString); [congruence | reflexivity].
  - split; [|split; lia]. intros _. now rewrite (Hfetch _ Hparse).
Qed.
Lemma cloudshell_report_lines_spec findings (t : trace) :
  Cloudshell.report W findings t
  = (Ok tt, (t ++ map Print (cloudshell_report_lines W findings))%list).
Proof.
  destruct findings as [|f fs]; [reflexivity|].
  unfold Cloudshell.report, bind, print at 1, emit.
  rewrite (for_each_print
             (fun finding => "- " ++ Cloudshell.AuditFinding_str W finding)).
  rewrite <- app_assoc. cbn [map app cloudshell_report_lines].
  now rewrite map_map.
Qed.

Lemma cloudshell_run_audited w d ty name proj policy (t' : trace) findings :
  sink_reload W (arg_sink_name args) (arg_project_id args) = Ok (w, d) ->
  Cloudshell.get_destination_info d = Ok (ty, name, proj) ->
  Cloudshell.select_policy W ty name (py_or proj (arg_project_id args))
    (prelude args w d) = (Ok policy, t') ->
  Cloudshell.audit_policy policy w ty = Ok findings ->
  run (Cloudshell.main W args)
  = (Ok tt, (t' ++ map Print (cloudshell_report_lines W findings))%list).
Proof.
  intros Hsink Hparse Hsel Haudit.
  unfold run. rewrite cloudshell_main_of_body.
  rewrite (cloudshell_run_parsed w d ty name proj Hsink Hparse).
  unfold bind at 1. rewrite Hsel.
  unfold bind, lift. rewrite Haudit.
  now rewrite cloudshell_report_lines_spec.
Qed.

(** X9.  A cloudshell run whose policy request succeeds and whose policy
    can be audited sends the sink lookup and that one request, prints the
    identity, the destination and then either the line saying that there
    are no excessive permissions or a header and one line per finding in
    the order of the findings, and returns. *)
Theorem cloudshell_successful_run w d ty name proj policy findings :
  sink_reload W (arg_sink_name args) (arg_project_id args) = Ok (w, d) ->
  Cloudshell.get_destination_info d = Ok (ty, name, proj) ->
  Cloudshell.audit_policy policy w ty = Ok findings ->
  let lines := map Print (cloudshell_report_lines W findings) in
  (startswith ty Cloudshell.DestinationType.BIGQUERY = true ->
   dataset_get_iam_policy W name = Ok policy ->
   run (Cloudshell.main W args)
   = (Ok tt, (prelude args w d ++ [DatasetGetIamPolicy name] ++ lines)%list))
  /\ (startswith ty Cloudshell.DestinationType.STORAGE = true ->
      bucket_get_iam_policy W name = Ok policy ->
      run (Cloudshell.main W args)
      = (Ok tt, (prelude args w d ++ [BucketGetIamPolicy name] ++ lines)%list))
  /\ (startswith ty Cloudshell.DestinationType.PUBSUB = true ->
      topic_get_iam_policy W (py_or proj (arg_project_id args)) name = Ok policy ->
      run (Cloudshell.main W args)
      = (Ok tt,
         (prelude args w d
          ++ [TopicGetIamPolicy (py_or proj (arg_project_id args)) name]
          ++ lines)%list))
  /\ List.length lines = match findings with
                         | [] => 1
                         | _ :: _ => S (List.length findings)
                         end.
Proof.
  intros Hsink Hparse Haudit lines.
  destruct (cloudshell_select_policy_cases W ty name (py_or proj (arg_project_id args)))
    as [Hb [Hs [Hp _]]].
  split; [|split; [|split]].
  - intros Hpre Hok. rewrite app_assoc.
    apply (cloudshell_run_audited w d ty name proj policy); try assumption.
    now rewrite (Hb Hpre), cloudshell_get_bigquery_policy_result, Hok.
  - intros Hpre Hok. rewrite app_assoc.
    apply (cloudshell_run_audited w d ty name proj policy); try assumption.
    now rewrite (Hs Hpre), cloudshell_get_storage_policy_result, Hok.
  - intros Hpre Hok. rewrite app_assoc.
    apply (cloudshell_run_audited w d ty name proj policy); try assumption.
    now rewrite (Hp Hpre), cloudshell_get_pubsub_policy_result, Hok.
  - unfold lines. rewrite length_map.
    destruct findings; simpl; [reflexivity|]. now rewrite length_map.
Qed.

(** X10.  The text of a finding of [audit_policy]: role and members, and a
    second line with the expected role exactly when the table has an entry
    for the destination type. *)
Theorem audited_finding_str policy w t findings :
  Cloudshell.audit_policy policy w t = Ok findings ->
  Forall (fun f =>
            match dict_get Cloudshell.DestinationType.EXPECTED_ROLES t with
            | Some r =>
                Cloudshell.AuditFinding_str W f
                = ("Role: " ++ Cloudshell.role f ++ ", Members: "
                   ++ repr_members W (Cloudshell.members f))
                  ++ nl ++ "Expected Role: " ++ r
            | None =>
                Cloudshell.AuditFinding_str W f
                = "Role: " ++ Cloudshell.role f ++ ", Members: "
                  ++ repr_members W (Cloudshell.members f)
            end) findings.
Proof.
  intros Hok.
  pose proof (cloudshell_findings_expected_role _ _ _ _ Hok) as Hexp.
  eapply Forall_impl; [|exact Hexp].
  intros f Hf. cbv beta in Hf. unfold Cloudshell.AuditFinding_str. rewrite Hf.
  rewrite expected_roles_get.
  destruct (String.eqb Cloudshell.DestinationType.BIGQUERY t); [reflexivity|].
  destruct (String.eqb Cloudshell.DestinationType.STORAGE t); [reflexivity|].
  destruct (String.eqb Cloudshell.DestinationType.PUBSUB t); reflexivity.
Qed.
End CloudshellBranches.

Lemma cloudshell_resource_not_found_witness :
  run (Cloudshell.main
         (constant_world None (Ok ("writerIdentity", "storage.googleapis.com/b1"))
            (Raise (NotFound "404 bucket")) (Ok (PyDict [])) (Ok (PyDict [])))
         scenario_args)
  = (Raise (SystemExit ("Error: Storage bucket '" ++ "b1" ++ "' not found")),
     (prelude scenario_args "writerIdentity" "storage.googleapis.com/b1"
      ++ [BucketGetIamPolicy "b1"])%list).
Proof.
  apply (proj1 (proj2 (cloudshell_resource_not_found
                         (constant_world None
                            (Ok ("writerIdentity", "storage.googleapis.com/b1"))
                            (Raise (NotFound "404 bucket"))
                            (Ok (PyDict [])) (Ok (PyDict [])))
                         scenario_args "writerIdentity" "storage.googleapis.com/b1"
                         "storage.googleapis.com" "b1" None (NotFound "404 bucket")
                         eq_refl eq_refl eq_refl)));
    reflexivity.
Defined.

Lemma cloudshell_topic_project_witness :
  policy_fetches
    (snd (run (Cloudshell.main (scenario_world "pubsub.googleapis.com/t1" None)
                 scenario_args)))
  = [TopicGetIamPolicy "my-project" "t1"].
Proof.
  assert (Hfree : Forall (sep_free slash) ["pubsub.googleapis.com"; "t1"])
    by (repeat constructor).
  assert (Hlen : 2 <= List.length ["pubsub.googleapis.com"; "t1"]) by (simpl; lia).
  apply (proj1 (cloudshell_topic_project
                  (scenario_world "pubsub.googleapis.com/t1" None) scenario_args
                  "writerIdentity" "pubsub.googleapis.com/t1"
                  ["pubsub.googleapis.com"; "t1"]
                  eq_refl eq_refl Hfree Hlen eq_refl)).
  reflexivity.
Defined.

Lemma cloudshell_successful_run_witness :
  run (Cloudshell.main (scenario_world "storage.googleapis.com/b1" None) scenario_args)
  = (Ok tt,
     (prelude scenario_args "writerIdentity" "storage.googleapis.com/b1"
      ++ [BucketGetIamPolicy "b1"]
      ++ [ Print (nl ++ "IAM Policy Audit Findings:");
           Print ("- Role: roles/storage.objectCreator, Members: writerIdentity"
                  ++ nl ++ "Expected Role: roles/storage.objectCreator");
           Print ("- Role: roles/storage.admin, Members: writerIdentity, other"
                  ++ nl ++ "Expected Role: roles/storage.objectCreator") ])%list).
Proof.
  destruct (cloudshell_successful_run
              (scenario_world "storage.googleapis.com/b1" None) scenario_args
              "writerIdentity" "storage.googleapis.com/b1"
              "storage.googleapis.com" "b1" None
              (PyDict storage_scenario_policy) _
              eq_refl eq_refl (cloudshell_audit_policy_dict _ _ _))
    as [_ [Hs _]].
  exact (Hs eq_refl eq_refl).
Defined.

Lemma audited_finding_str_witness :
  Forall (fun f =>
            Cloudshell.AuditFinding_str (scenario_world "x/y" None) f
            = "Role: " ++ Cloudshell.role f ++ ", Members: "
              ++ String.concat ", " (Cloudshell.members f))
    (map (fun rm => {| Cloudshell.role := fst rm;
                       Cloudshell.members := snd rm;
                       Cloudshell.expected_role := None |})
       (granted "writerIdentity" storage_scenario_policy)).
Proof.
  exact (audited_finding_str (scenario_world "x/y" None)
           (PyDict storage_scenario_policy) "writerIdentity"
           "storage.googleapis.com2" _ (cloudshell_audit_policy_dict _ _ _)).
Defined.

(** ** Runs of the standalone script *)

Section StandaloneBranches.
Variable W : World.
Variable args : Args.
Hypothesis credentials_set :
  Standalone.env_missing W "GOOGLE_APPLICATION_CREDENTIALS" = false.


Lemma standalone_run_client_raises (e : exn) :
  logging_client W (arg_project_id args) = Raise e ->
  run (Standalone.main W args) = (Raise e, []).
Proof.
  intros H. unfold run, Standalone.main. rewrite credentials_set.
  unfold bind at 1, Standalone.get_writer_identity.
  unfold bind at 1, lift. now rewrite H.
Qed.

Lemma standalone_run_sink_raises client (e : exn) :
  logging_client W (arg_project_id args) = Ok client ->
  client (arg_sink_name args) = Raise e ->
  run (Standalone.main W args)
  = (Raise e, [SinkReload (arg_sink_name args) (arg_project_id args)]).
Proof.
  intros Hc H. unfold run, Standalone.main. rewrite credentials_set.
  unfold bind at 1, Standalone.get_writer_identity.
  unfold bind at 1, lift at 1. rewrite Hc.
  unfold bind at 1, emit, lift. now rewrite H.
Qed.

(** The BigQuery branch in full. *)
Lemma standalone_select_bigquery_result d w (t : trace) :
  startswith d "bigquery.googleapis.com" = true ->
  Standalone.select_and_audit W d w t
  = (match dataset_get_iam_policy W (last (split slash d) EmptyString) with
     | Raise e => Raise e
     | Ok policy =>
         match getattr policy "bindings" with
         | Raise e => Raise e
         | Ok bindings =>
             match Standalone.audit_policy bindings w with
             | Raise e => Raise e
             | Ok findings => Ok (Some findings)
             end
         end
     end,
     (t ++ [DatasetGetIamPolicy (last (split slash d) EmptyString)])%list).
Proof.
  intros H. unfold Standalone.select_and_audit. rewrite H.
  unfold bind at 1, lift at 1. rewrite last_segment_ok.
  unfold bind at 1, Standalone.get_bigquery_policy, bind at 1, emit, lift at 1.
  destruct (dataset_get_iam_policy W _) as [policy|e]; [|reflexivity].
  unfold bind, lift, ret.
  destruct (getattr policy "bindings") as [b|e]; [|reflexivity].
  now destruct (Standalone.audit_policy b w).
Qed.

(** The Storage branch in full. *)
Lemma standalone_select_storage_result d w (t : trace) :
  startswith d "storage.googleapis.com" = true ->
  Standalone.select_and_audit W d w t
  = (match bucket_get_iam_policy W (last (split slash d) EmptyString) with
     | Raise e => Raise e
     | Ok policy =>
         match Standalone.audit_policy policy w with
         | Raise e => Raise e
         | Ok findings => Ok (Some findings)
         end
     end,
     (t ++ [BucketGetIamPolicy (last (split slash d) EmptyString)])%list).
Proof.
  intros H. unfold Standalone.select_and_audit.
  destruct (known_types_exclusive d) as [_ [Hs _]].
  destruct (Hs H) as [Hb _].
  unfold Cloudshell.DestinationType.BIGQUERY in Hb. rewrite Hb, H.
  unfold bind at 1, lift at 1. rewrite last_segment_ok.
  unfold bind at 1, Standalone.get_storage_policy, bind at 1, emit, lift at 1.
  destruct (bucket_get_iam_policy W _) as [policy|e]; [|reflexivity].
  unfold bind, lift, ret.
  now destruct (Standalone.audit_policy policy w).
Qed.

(** X11.  The standalone script catches nothing: with credentials set, an
    exception of the sink lookup, of the dataset request or of the bucket
    request leaves [main] as it is, right after the request that raised
    it, and no line about it is printed; an exception raised while the
    logging client is built leaves [main] as it is before any request. *)
Theorem standalone_collaborator_errors_escape (e : exn) :
  (forall client,
      logging_client W (arg_project_id args) = Ok client ->
      client (arg_sink_name args) = Raise e ->
      run (Standalone.main W args)
      = (Raise e, [SinkReload (arg_sink_name args) (arg_project_id args)]))
  /\ (logging_client W (arg_project_id args) = Raise e ->
      run (Standalone.main W args) = (Raise e, []))
  /\ (forall w d,
         sink_reload W (arg_sink_name args) (arg_project_id args) = Ok (w, d) ->
         let name := last (split slash d) EmptyString in
         (startswith d "bigquery.googleapis.com" = true ->
          dataset_get_iam_policy W name = Raise e ->
          run (Standalone.main W args)
          = (Raise e, (prelude args w d ++ [DatasetGetIamPolicy name])%list))
         /\ (startswith d "storage.googleapis.com" = true ->
             bucket_get_iam_policy W name = Raise e ->
             run (Standalone.main W args)
             = (Raise e, (prelude args w d ++ [BucketGetIamPolicy name])%list))).
Proof.
  split; [intros client; apply standalone_run_sink_raises|].
  split; [apply standalone_run_client_raises|].
  intros w d Hsink name.
  rewrite (standalone_main_prelude W args w d credentials_set Hsink).
  unfold bind. split; intros Hpre Hraise.
  - rewrite (standalone_select_bigquery_result d w _ Hpre).
    fold name. now rewrite Hraise.
  - rewrite (standalone_select_storage_result d w _ Hpre).
    fold name. now rewrite Hraise.
Qed.

(** X12.  The standalone script fixes the form of the policy per branch:
    the BigQuery branch reads the [bindings] attribute, so a dataset policy
    that is a plain mapping ends the run in [AttributeError]; the Storage
    branch audits the policy itself, so a bucket policy that is an object
    ends the run in [AttributeError] even when it has [bindings].  Both
    happen right after the policy request. *)
Theorem standalone_policy_form w d :
  sink_reload W (arg_sink_name args) (arg_project_id args) = Ok (w, d) ->
  let name := last (split slash d) EmptyString in
  (forall m,
      startswith d "bigquery.googleapis.com" = true ->
      dataset_get_iam_policy W name = Ok (PyDict m) ->
      exists msg,
        run (Standalone.main W args)
        = (Raise (AttributeError msg),
           (prelude args w d ++ [DatasetGetIamPolicy name])%list))
  /\ (forall attrs,
         startswith d "storage.googleapis.com" = true ->
         bucket_get_iam_policy W name = Ok (PyObject attrs) ->
         exists msg,
           run (Standalone.main W args)
           = (Raise (AttributeError msg),
              (prelude args w d ++ [BucketGetIamPolicy name])%list)).
Proof.
  intros Hsink name.
  rewrite (standalone_main_prelude W args w d credentials_set Hsink).
  unfold bind. split.
  - intros m Hpre Hok.
    rewrite (standalone_select_bigquery_result d w _ Hpre).
    fold name. rewrite Hok. simpl. eexists. reflexivity.
  - intros attrs Hpre Hok.
    rewrite (standalone_select_storage_result d w _ Hpre).
    fold name. rewrite Hok. simpl. eexists. reflexivity.
Qed.

End StandaloneBranches.

Lemma standalone_collaborator_errors_escape_witness :
  run (Standalone.main
         (constant_world (Some "key.json")
            (Ok ("writerIdentity", "storage.googleapis.com/b1"))
            (Raise (NotFound "404 bucket")) (Ok (PyDict [])) (Ok (PyDict [])))
         scenario_args)
  = (Raise (NotFound "404 bucket"),
     (prelude scenario_args "writerIdentity" "storage.googleapis.com/b1"
      ++ [BucketGetIamPolicy "b1"])%list).
Proof.
  apply (proj2 (proj2 (proj2 (standalone_collaborator_errors_escape
                                (constant_world (Some "key.json")
                                   (Ok ("writerIdentity", "storage.googleapis.com/b1"))
                                   (Raise (NotFound "404 bucket"))
                                   (Ok (PyDict [])) (Ok (PyDict [])))
                                scenario_args eq_refl (NotFound "404 bucket")))
                  "writerIdentity" "storage.googleapis.com/b1" eq_refl));
    reflexivity.
Defined.

Lemma standalone_policy_form_witness :
  exists msg,
    run (Standalone.main
           (constant_world (Some "key.json")
              (Ok ("writerIdentity", "bigquery.googleapis.com/d1"))
              (Ok (PyDict [])) (Ok (PyDict storage_scenario_policy)) (Ok (PyDict [])))
           scenario_args)
    = (Raise (AttributeError msg),
       (prelude scenario_args "writerIdentity" "bigquery.googleapis.com/d1"
        ++ [DatasetGetIamPolicy "d1"])%list).
Proof.
  apply (proj1 (standalone_policy_form
                  (constant_world (Some "key.json")
                     (Ok ("writerIdentity", "bigquery.googleapis.com/d1"))
                     (Ok (PyDict [])) (Ok (PyDict storage_scenario_policy))
                     (Ok (PyDict [])))
                  scenario_args eq_refl
                  "writerIdentity" "bigquery.googleapis.com/d1" eq_refl)
           storage_scenario_policy);
    reflexivity.
Defined.


(** ** What a run requests *)

Lemma requests_app (t1 t2 : trace) :
  requests (t1 ++ t2)%list = (requests t1 ++ requests t2)%list.
Proof. apply filter_app. Qed.

Lemma requests_prints (lines : list string) : requests (map Print lines) = [].
Proof. induction lines; simpl; auto. Qed.

(** The requests of a trace made of the prelude, at most one policy request
    and printed lines. *)
Lemma requests_shape args w d (fetch : list event) (lines : list string) :
  List.length fetch <= 1 ->
  Forall (fun ev => is_policy_fetch ev = true) fetch ->
  let t := ((prelude args w d ++ fetch) ++ map Print lines)%list in
  requests t = SinkReload (arg_sink_name args) (arg_project_id args) :: fetch
  /\ policy_fetches t = fetch.
Proof.
  intros Hlen Hall t. unfold t.
  rewrite !requests_app, !policy_fetches_app, requests_prints, policy_fetches_prints.
  rewrite !app_nil_r.
  assert (Hreq : requests fetch = fetch).
  { unfold requests. apply forallb_filter_id. apply forallb_forall.
    intros ev Hin. rewrite Forall_forall in Hall. specialize (Hall ev Hin).
    now destruct ev. }
  assert (Hpol : policy_fetches fetch = fetch).
  { unfold policy_fetches. apply forallb_filter_id. apply forallb_forall.
    intros ev Hin. rewrite Forall_forall in Hall. exact (Hall ev Hin). }
  rewrite Hreq, Hpol. split; reflexivity.
Qed.

Lemma cloudshell_select_policy_trace (W : World) ty name project (t : trace) :
  exists fetch,
    snd (Cloudshell.select_policy W ty name project t) = (t ++ fetch)%list
    /\ List.length fetch <= 1
    /\ Forall (fun ev => is_policy_fetch ev = true) fetch.
Proof.
  destruct (cloudshell_select_policy_cases W ty name project) as [Hb [Hs [Hp Hn]]].
  destruct (startswith ty Cloudshell.DestinationType.BIGQUERY) eqn:Eb.
  { rewrite (Hb eq_refl), cloudshell_get_bigquery_policy_trace.
    eexists. split; [reflexivity|]. split; [simpl; lia | repeat constructor]. }
  destruct (startswith ty Cloudshell.DestinationType.STORAGE) eqn:Es.
  { rewrite (Hs eq_refl), cloudshell_get_storage_policy_trace.
    eexists. split; [reflexivity|]. split; [simpl; lia | repeat constructor]. }
  destruct (startswith ty Cloudshell.DestinationType.PUBSUB) eqn:Ep.
  { rewrite (Hp eq_refl), cloudshell_get_pubsub_policy_trace.
    eexists. split; [reflexivity|]. split; [simpl; lia | repeat constructor]. }
  rewrite (Hn eq_refl eq_refl eq_refl). exists []. simpl.
  rewrite app_nil_r. split; [reflexivity|]. split; [lia | constructor].
Qed.

Lemma standalone_select_and_audit_trace (W : World) d w (t : trace) :
  exists fetch lines,
    snd (Standalone.select_and_audit W d w t)
    = ((t ++ fetch) ++ map Print lines)%list
    /\ List.length fetch <= 1
    /\ Forall (fun ev => is_policy_fetch ev = true) fetch.
Proof.
  destruct (startswith d "bigquery.googleapis.com") eqn:Eb.
  { rewrite (standalone_select_bigquery W d w t Eb).
    eexists _, []. simpl. rewrite app_nil_r.
    split; [reflexivity|]. split; [simpl; lia | repeat constructor]. }
  destruct (startswith d "storage.googleapis.com") eqn:Es.
  { rewrite (standalone_select_storage W d w t Es).
    eexists _, []. simpl. rewrite app_nil_r.
    split; [reflexivity|]. split; [simpl; lia | repeat constructor]. }
  destruct (startswith d "pubsub.googleapis.com") eqn:Ep.
  { rewrite (standalone_select_pubsub W d w t Ep).
    exists [], []. simpl. rewrite !app_nil_r.
    split; [reflexivity|]. split; [lia | constructor]. }
  rewrite (standalone_select_unsupported W d w t Eb Es Ep).
  exists [], ["Unsupported destination type."]. simpl. rewrite app_nil_r.
  split; [reflexivity|]. split; [lia | constructor].
Qed.

(** X14.  Whatever the collaborators answer, a run records at most two
    request events, the sink lookup first.  The cloudshell script records
    none when the logging client cannot be built; otherwise it looks the
    sink up and then enters at most one policy retrieval.  The standalone
    script records none when the credentials variable is missing or the
    logging client cannot be built; otherwise the same.  No run enters two
    policy retrievals, and none enters one before the sink has been looked
    up. *)
Theorem requests_of_a_run (W : World) (args : Args) :
  ((requests (snd (run (Cloudshell.main W args))) = []
    /\ exists e, logging_client W (arg_project_id args) = Raise e)
   \/ exists client fetch,
       logging_client W (arg_project_id args) = Ok client
       /\ requests (snd (run (Cloudshell.main W args)))
          = SinkReload (arg_sink_name args) (arg_project_id args) :: fetch
       /\ policy_fetches (snd (run (Cloudshell.main W args))) = fetch
       /\ List.length fetch <= 1)
  /\ ((requests (snd (run (Standalone.main W args))) = []
       /\ (Standalone.env_missing W "GOOGLE_APPLICATION_CREDENTIALS" = true
           \/ exists e, logging_client W (arg_project_id args) = Raise e))
      \/ exists client fetch,
          Standalone.env_missing W "GOOGLE_APPLICATION_CREDENTIALS" = false
          /\ logging_client W (arg_project_id args) = Ok client
          /\ requests (snd (run (Standalone.main W args)))
             = SinkReload (arg_sink_name args) (arg_project_id args) :: fetch
          /\ policy_fetches (snd (run (Standalone.main W args))) = fetch
          /\ List.length fetch <= 1).
Proof.
  split.
  - destruct (logging_client W (arg_project_id args)) as [client|e] eqn:Hc.
    2: { left. unfold run. rewrite cloudshell_main_of_body.
         rewrite (cloudshell_main_body_client_raises W args e Hc).
         split; [reflexivity | eauto]. }
    right. exists client.
    destruct (client (arg_sink_name args)) as [[w d]|e] eqn:Hr.
    2: { exists []. unfold run. rewrite cloudshell_main_of_body.
         rewrite (cloudshell_main_body_sink_raises W args client e Hc Hr).
         split; [reflexivity|]. split; [reflexivity|].
         split; [reflexivity | simpl; lia]. }
    assert (Hsink : sink_reload W (arg_sink_name args) (arg_project_id args)
                    = Ok (w, d)).
    { unfold sink_reload. now rewrite Hc. }
    destruct (Cloudshell.get_destination_info d) as [[[ty name] proj]|e] eqn:Hparse.
    + destruct (cloudshell_main_after_select W args w d ty name proj Hsink Hparse)
        as [lines Hrun].
      destruct (cloudshell_select_policy_trace W ty name
                  (py_or proj (arg_project_id args)) (prelude args w d))
        as [fetch [Hsel [Hlen Hall]]].
      rewrite Hsel in Hrun. rewrite Hrun.
      destruct (requests_shape args w d fetch lines Hlen Hall) as [Hreq Hpol].
      exists fetch. split; [reflexivity|]. split; [exact Hreq|].
      split; [exact Hpol | exact Hlen].
    + exists []. unfold run. rewrite cloudshell_main_of_body.
      rewrite (cloudshell_main_body_parsed W args w d Hsink).
      unfold bind at 1, lift. rewrite Hparse.
      split; [reflexivity|]. split; [reflexivity|].
      split; [reflexivity | simpl; lia].
  - destruct (Standalone.env_missing W "GOOGLE_APPLICATION_CREDENTIALS") eqn:Henv.
    { left. unfold run, Standalone.main. rewrite Henv. split; [reflexivity | now left]. }
    destruct (logging_client W (arg_project_id args)) as [client|e] eqn:Hc.
    2: { left. rewrite (standalone_run_client_raises W args Henv e Hc).
         split; [reflexivity | right; eauto]. }
    right. exists client.
    destruct (client (arg_sink_name args)) as [[w d]|e] eqn:Hr.
    2: { exists []. rewrite (standalone_run_sink_raises W args Henv client e Hc Hr).
         split; [reflexivity|]. split; [reflexivity|]. split; [reflexivity|].
         split; [reflexivity | simpl; lia]. }
    assert (Hsink : sink_reload W (arg_sink_name args) (arg_project_id args)
                    = Ok (w, d)).
    { unfold sink_reload. now rewrite Hc. }
    destruct (standalone_main_after_select W args w d Henv Hsink) as [lines Hrun].
    destruct (standalone_select_and_audit_trace W d w (prelude args w d))
      as [fetch [lines' [Hsel [Hlen Hall]]]].
    rewrite Hsel, <- app_assoc, <- map_app in Hrun. rewrite Hrun.
    destruct (requests_shape args w d fetch (lines' ++ lines) Hlen Hall)
      as [Hreq Hpol].
    exists fetch. split; [reflexivity|]. split; [reflexivity|].
    split; [exact Hreq|]. split; [exact Hpol | exact Hlen].
Qed.

(** X15.  For a destination with a "/" that starts with the BigQuery or the
    Storage type, and with credentials set, the two scripts ask for the
    same policy: the dataset or the bucket named by the last segment. *)
Theorem scripts_request_same_policy (W : World) (args : Args) (w d : string) :
  Standalone.env_missing W "GOOGLE_APPLICATION_CREDENTIALS" = false ->
  sink_reload W (arg_sink_name args) (arg_project_id args) = Ok (w, d) ->
  has_char slash d = true ->
  startswith d "bigquery.googleapis.com" = true
  \/ startswith d "storage.googleapis.com" = true ->
  policy_fetches (snd (run (Cloudshell.main W args)))
  = policy_fetches (snd (run (Standalone.main W args)))
  /\ exists ev, policy_fetches (snd (run (Cloudshell.main W args))) = [ev].
Proof.
  intros Henv Hsink Hslash Hpre.
  pose proof (get_destination_info_closed_form d) as Hparse. cbv zeta in Hparse.
  apply split_length_has_char in Hslash.
  destruct (Nat.ltb_spec (List.length (split slash d)) 2) as [Hlt|_]; [lia|].
  destruct (cloudshell_main_after_select W args w d _ _ _ Hsink Hparse)
    as [lines Hc].
  destruct (standalone_main_after_select W args w d Henv Hsink) as [lines' Hs].
  match type of Hc with
  | context [Cloudshell.select_policy W ?ty ?name ?project] =>
      destruct (cloudshell_select_policy_cases W ty name project)
        as [Hb [Hst _]]
  end.
  rewrite Hc, Hs. destruct Hpre as [Hpre|Hpre].
  - rewrite Hb
      by (now rewrite <- (startswith_first_segment
                            Cloudshell.DestinationType.BIGQUERY d eq_refl)).
    rewrite cloudshell_get_bigquery_policy_trace.
    rewrite (standalone_select_bigquery W d w _ Hpre).
    rewrite !fetches_after_prelude by reflexivity.
    split; [reflexivity | eexists; reflexivity].
  - rewrite Hst
      by (now rewrite <- (startswith_first_segment
                            Cloudshell.DestinationType.STORAGE d eq_refl)).
    rewrite cloudshell_get_storage_policy_trace.
    rewrite (standalone_select_storage W d w _ Hpre).
    rewrite !fetches_after_prelude by reflexivity.
    split; [reflexivity | eexists; reflexivity].
Qed.

Lemma scripts_request_same_policy_witness :
  policy_fetches
    (snd (run (Cloudshell.main
                 (scenario_world "bigquery.googleapis.com/projects/p1/datasets/d1"
                    (Some "key.json"))
                 scenario_args)))
  = policy_fetches
      (snd (run (Standalone.main
                   (scenario_world "bigquery.googleapis.com/projects/p1/datasets/d1"
                      (Some "key.json"))
                   scenario_args)))
  /\ exists ev,
      policy_fetches
        (snd (run (Cloudshell.main
                     (scenario_world "bigquery.googleapis.com/projects/p1/datasets/d1"
                        (Some "key.json"))
                     scenario_args))) = [ev].
Proof.
  apply (scripts_request_same_policy
           (scenario_world "bigquery.googleapis.com/projects/p1/datasets/d1"
              (Some "key.json"))
           scenario_args "writerIdentity"
           "bigquery.googleapis.com/projects/p1/datasets/d1");
    try reflexivity.
  left. reflexivity.
Defined.

(** ** More on the auditor over a store *)

Section StoreInvariants.
Import Store.
Local Open Scope list_scope.

(** The loop changes no object but the list it appends to, which stays a
    list, whether it ends normally or raises. *)
Lemma audit_loop_frame (w : string) (exp : option string) (fl : loc)
    (entries : list (string * loc)) :
  forall (h : heap) (elems : list loc),
    deref h fl = Some (CList elems) ->
    (forall l c, l <> fl -> deref h l = Some c ->
                 deref (snd (audit_loop entries w exp fl h)) l = Some c)
    /\ List.length h <= List.length (snd (audit_loop entries w exp fl h))
    /\ exists new,
         deref (snd (audit_loop entries w exp fl h)) fl = Some (CList (elems ++ new))
         /\ Forall (fun f =>
                      exists role m,
                        deref (snd (audit_loop entries w exp fl h)) f
                        = Some (CFinding role m exp)
                        /\ In (role, m) entries) new.
Proof.
  induction entries as [|[r m] rest IH]; intros h elems Hlist.
  - simpl. split; [auto|]. split; [lia|].
    exists []. rewrite app_nil_r. split; [assumption | constructor].
  - simpl audit_loop.
    destruct (py_in h w m) as [[|]|e].
    + unfold alloc, append.
      rewrite (deref_app _ [CFinding r m exp] _ _ Hlist).
      set (c := CFinding r m exp).
      set (h2 := update (h ++ [c]) fl (CList (elems ++ [List.length h]))).
      pose proof (deref_lt _ _ _ Hlist) as Hfl_lt.
      assert (Hstep : forall l c0, l <> fl ->
                deref (h ++ [c]) l = Some c0 -> deref h2 l = Some c0).
      { intros l c0 Hne H. unfold h2. rewrite deref_update_neq; auto. }
      assert (Hlist2 : deref h2 fl = Some (CList (elems ++ [List.length h]))).
      { unfold h2. apply deref_update_eq. rewrite length_app. simpl. lia. }
      destruct (IH h2 _ Hlist2) as [Hframe [Hlen [new [Hfl Hnew]]]].
      split; [|split].
      * intros l c0 Hne H. apply Hframe; [assumption|].
        apply Hstep; [assumption | now apply deref_app].
      * assert (Hlen2 : List.length h2 = S (List.length h)).
        { unfold h2. rewrite update_length, length_app. simpl. lia. }
        eapply Nat.le_trans; [|exact Hlen]. lia.
      * exists (List.length h :: new). split.
        -- etransitivity; [exact Hfl|]. now rewrite <- app_assoc.
        -- constructor.
           ++ exists r, m. split; [|now left].
              apply Hframe; [lia|]. apply Hstep; [lia|]. apply deref_alloc.
           ++ eapply Forall_impl; [|exact Hnew].
              intros f [role [m' [Hf Hin]]]. exists role, m'.
              split; [assumption | now right].
    + destruct (IH h elems Hlist) as [Hframe [Hlen [new [Hfl Hnew]]]].
      split; [assumption|]. split; [assumption|].
      exists new. split; [assumption|].
      eapply Forall_impl; [|exact Hnew].
      intros f [role [m' [Hf Hin]]]. exists role, m'.
      split; [assumption | now right].
    + simpl. split; [auto|]. split; [lia|].
      exists []. rewrite app_nil_r. split; [assumption | constructor].
Qed.

(** X16.  [audit_policy] only reads what it is given: on any store and for
    any arguments, every object of the store is unchanged after the call,
    the store has grown, and a list that is returned is a new object. *)
Theorem audit_policy_read_only (h : heap) (p : loc) (w t : string) :
  preserves h (snd (audit_policy p w t h))
  /\ List.length h < List.length (snd (audit_policy p w t h))
  /\ forall l, fst (audit_policy p w t h) = Ok l ->
               l = List.length h
               /\ deref h l = None
               /\ exists elems, deref (snd (audit_policy p w t h)) l = Some (CList elems).
Proof.
  unfold audit_policy, alloc.
  destruct (items (h ++ [CList []]) (get_bindings (h ++ [CList []]) p))
    as [entries|e].
  - destruct (audit_loop_frame w
                (dict_get Cloudshell.DestinationType.EXPECTED_ROLES t)
                (List.length h) entries (h ++ [CList []]) [] (deref_alloc _ _))
      as [Hframe [Hlen [new [Hfl _]]]].
    rewrite length_app in Hlen. simpl in Hlen.
    destruct (audit_loop entries w _ (List.length h) (h ++ [CList []]))
      as [[[]|e] h2]; simpl in *.
    + split; [|split; [lia|]].
      * intros l c H. apply Hframe; [apply deref_lt in H; lia | now apply deref_app].
      * intros l Hl. injection Hl as <-. split; [reflexivity|]. split.
        -- unfold deref. apply nth_error_None. lia.
        -- now exists new.
    + split; [|split; [lia|discriminate]].
      intros l c H. apply Hframe; [apply deref_lt in H; lia | now apply deref_app].
  - simpl. split; [apply preserves_alloc|]. split; [|discriminate].
    rewrite length_app. simpl. lia.
Qed.

(** X17.  The findings share the policy's members: when the bindings of the
    policy are a dict of the store, every finding of the returned list
    holds a role of that dict together with the address the dict has for
    it, not a copy of the members. *)
Theorem findings_share_members (h : heap) (p b : loc)
    (entries : list (string * loc)) (w t : string) :
  get_bindings h p = b ->
  deref h b = Some (CDict entries) ->
  forall l, fst (audit_policy p w t h) = Ok l ->
    exists new,
      deref (snd (audit_policy p w t h)) l = Some (CList new)
      /\ Forall (fun f =>
                   exists role m,
                     deref (snd (audit_policy p w t h)) f
                     = Some (CFinding role m
                               (dict_get Cloudshell.DestinationType.EXPECTED_ROLES t))
                     /\ assoc entries role <> None
                     /\ In (role, m) entries) new.
Proof.
  intros Hb Hd l.
  assert (Hb1 : get_bindings (h ++ [CList []]) p = b).
  { unfold get_bindings in *.
    destruct (deref h p) as [c|] eqn:Hp.
    - now rewrite (deref_app _ [CList []] _ _ Hp).
    - subst b. congruence. }
  unfold audit_policy, alloc. rewrite Hb1. unfold items.
  rewrite (deref_app _ [CList []] _ _ Hd).
  destruct (audit_loop_frame w
              (dict_get Cloudshell.DestinationType.EXPECTED_ROLES t)
              (List.length h) entries (h ++ [CList []]) [] (deref_alloc _ _))
    as [_ [_ [new [Hfl Hnew]]]].
  destruct (audit_loop entries w _ (List.length h) (h ++ [CList []]))
    as [[[]|e] h2]; simpl in *; [|discriminate].
  intros Hl. injection Hl as <-. exists new. split; [exact Hfl|].
  eapply Forall_impl; [|exact Hnew].
  intros f [role [m [Hf Hin]]]. exists role, m. split; [assumption|].
  split; [|assumption].
  clear -Hin. induction entries as [|[k v] rest IH]; [contradiction|].
  simpl. destruct (String.eqb_spec k role) as [_|Hne]; [discriminate|].
  destruct Hin as [Heq|Hin]; [|now apply IH].
  injection Heq as Hk _. congruence.
Qed.
End StoreInvariants.

Lemma findings_share_members_witness :
  exists new,
    Store.deref
      (snd (Store.audit_policy 2 "writerIdentity" "storage.googleapis.com"
              Store.storage_scenario_heap)) 3
    = Some (Store.CList new)
    /\ Forall (fun f =>
                 exists role m,
                   Store.deref
                     (snd (Store.audit_policy 2 "writerIdentity"
                             "storage.googleapis.com" Store.storage_scenario_heap)) f
                   = Some (Store.CFinding role m
                             (dict_get Cloudshell.DestinationType.EXPECTED_ROLES
                                "storage.googleapis.com"))
                   /\ Store.assoc
                        [("roles/storage.objectCreator", 0); ("roles/storage.admin", 1)]
                        role <> None
                   /\ In (role, m)
                        [("roles/storage.objectCreator", 0); ("roles/storage.admin", 1)])
         new.
Proof.
  apply (findings_share_members Store.storage_scenario_heap 2 2
           [("roles/storage.objectCreator", 0); ("roles/storage.admin", 1)]
           "writerIdentity" "storage.googleapis.com");
    reflexivity.
Defined.

Lemma audit_policy_read_only_witness :
  3 = List.length Store.storage_scenario_heap
  /\ Store.deref Store.storage_scenario_heap 3 = None
  /\ exists elems,
      Store.deref
        (snd (Store.audit_policy 2 "writerIdentity" "storage.googleapis.com"
                Store.storage_scenario_heap)) 3
      = Some (Store.CList elems).
Proof.
  apply (proj2 (proj2 (audit_policy_read_only Store.storage_scenario_heap 2
                         "writerIdentity" "storage.googleapis.com"))).
  reflexivity.
Defined.

(** ** What leaves the cloudshell [main] *)

Lemma cloudshell_audit_policy_raises policy w t e :
  Cloudshell.audit_policy policy w t = Raise e ->
  exists msg, e = AttributeError msg.
Proof.
  rewrite cloudshell_audit_policy_items. unfold value_items.
  destruct (getattr_default policy "bindings" policy) as [d|attrs|d attrs]; simpl;
    try discriminate.
  intros H. injection H as <-. eexists. reflexivity.
Qed.

Section CloudshellEscapes.
Variable W : World.
Variable args : Args.

(** An exception that leaves the [try] block of [main] derives from
    [Exception], or is the [SystemExit] of the unsupported type, or was
    raised by a collaborator. *)
Lemma cloudshell_main_body_raises (e : exn) (t : trace) :
  Cloudshell.main_body W args [] = (Raise e, t) ->
  is_Exception e = true
  \/ (exists msg, e = SystemExit msg)
  \/ collaborator_raises W e.
Proof.
  assert (Htranslate : forall (e0 : exn) (msg : string),
             collaborator_raises W e0 ->
             is_Exception (if is_NotFound e0 then ValueError msg else e0) = true
             \/ (exists m, (if is_NotFound e0 then ValueError msg else e0)
                           = SystemExit m)
             \/ collaborator_raises W (if is_NotFound e0 then ValueError msg else e0)).
  { intros e0 msg H. destruct (is_NotFound e0); [now left | now right; right]. }
  destruct (logging_client W (arg_project_id args)) as [client|e0] eqn:Hc.
  2: { rewrite (cloudshell_main_body_client_raises W args e0 Hc).
       intros H. injection H as <- _. apply Htranslate. left. eauto. }
  destruct (client (arg_sink_name args)) as [[w d]|e0] eqn:Hr.
  2: { rewrite (cloudshell_main_body_sink_raises W args client e0 Hc Hr).
       intros H. injection H as <- _. apply Htranslate. right. left. eauto. }
  assert (Hsink : sink_reload W (arg_sink_name args) (arg_project_id args) = Ok (w, d)).
  { unfold sink_reload. now rewrite Hc. }
  destruct (Cloudshell.get_destination_info d) as [[[ty name] proj]|e1] eqn:Hparse.
  2: { rewrite (cloudshell_main_body_parsed W args w d Hsink).
       unfold bind at 1, lift at 1. rewrite Hparse.
       intros H. injection H as <- _.
       rewrite get_destination_info_closed_form in Hparse. cbv zeta in Hparse.
       destruct (List.length (split slash d) <? 2)%nat; [|discriminate].
       injection Hparse as <-. now left. }
  rewrite (cloudshell_run_parsed W args w d ty name proj Hsink Hparse).
  assert (Hrest : forall (r : result pyval) (t' : trace),
             match r with
             | Ok _ => True
             | Raise e0 =>
                 is_Exception e0 = true \/ (exists m, e0 = SystemExit m)
                 \/ collaborator_raises W e0
             end ->
             (let (r0, t0) := (r, t') in
              match r0 with
              | Ok policy =>
                  bind (lift (Cloudshell.audit_policy policy w ty))
                    (Cloudshell.report W) t0
              | Raise e0 => (Raise e0, t0)
              end) = (Raise e, t) ->
             is_Exception e = true \/ (exists m, e = SystemExit m)
             \/ collaborator_raises W e).
  { intros [policy|e0] t' Hr0; cbv iota beta.
    - unfold bind, lift.
      destruct (Cloudshell.audit_policy policy w ty) as [fs|e1] eqn:Ha.
      + rewrite cloudshell_report_lines_spec. discriminate.
      + intros H. injection H as <- _.
        apply cloudshell_audit_policy_raises in Ha as [msg ->]. now left.
    - intros H. injection H as <- _. exact Hr0. }
  destruct (cloudshell_select_policy_cases W ty name (py_or proj (arg_project_id args)))
    as [Hb [Hs [Hp Hn]]].
  unfold bind at 1.
  destruct (startswith ty Cloudshell.DestinationType.BIGQUERY) eqn:Eb.
  { rewrite (Hb eq_refl), cloudshell_get_bigquery_policy_result. apply Hrest.
    destruct (dataset_get_iam_policy W name) as [policy|e0] eqn:Ho; [exact I|].
    apply Htranslate. right. right. right. left. eauto. }
  destruct (startswith ty Cloudshell.DestinationType.STORAGE) eqn:Es.
  { rewrite (Hs eq_refl), cloudshell_get_storage_policy_result. apply Hrest.
    destruct (bucket_get_iam_policy W name) as [policy|e0] eqn:Ho; [exact I|].
    apply Htranslate. right. right. left. eauto. }
  destruct (startswith ty Cloudshell.DestinationType.PUBSUB) eqn:Ep.
  { rewrite (Hp eq_refl), cloudshell_get_pubsub_policy_result. apply Hrest.
    destruct (topic_get_iam_policy W _ name) as [policy|e0] eqn:Ho; [exact I|].
    apply Htranslate. right. right. right. right. eauto. }
  rewrite (Hn eq_refl eq_refl eq_refl). unfold sys_exit, raise.
  intros H. injection H as <- _. right. left. eauto.
Qed.

(** X4.  Of what happens in a run of the cloudshell [main], every exception
    that derives from [Exception] ends as a [SystemExit]: the run returns,
    or ends in [SystemExit], or ends in an exception outside [Exception],
    such as [KeyboardInterrupt], that one of the collaborators raised and
    that [main] lets through. *)
Theorem cloudshell_main_exits_cleanly :
  fst (run (Cloudshell.main W args)) = Ok tt
  \/ (exists msg, fst (run (Cloudshell.main W args)) = Raise (SystemExit msg))
  \/ (exists e,
        fst (run (Cloudshell.main W args)) = Raise e
        /\ is_Exception e = false
        /\ collaborator_raises W e).
Proof.
  unfold run. rewrite cloudshell_main_of_body.
  destruct (Cloudshell.main_body W args []) as [[[]|e] t'] eqn:Hbody.
  - now left.
  - right. simpl.
    destruct (is_ValueError e) eqn:Hv; [left; eauto|].
    destruct (is_Exception e) eqn:He; [left; eauto|].
    destruct (cloudshell_main_body_raises e t' Hbody) as [H|[[msg ->]|H]].
    + congruence.
    + left. eauto.
    + right. exists e. auto.
Qed.
End CloudshellEscapes.

(** ** A policy without a mapping *)

(** X18.  When what [getattr(policy, 'bindings', policy)] gives is an object
    without [items], the cloudshell auditor raises an [AttributeError]; and
    whenever the auditor raises an [AttributeError], a run that fetched that
    policy ends, right after its one policy request, in [sys.exit] with
    "Unexpected error: " followed by the message of that very exception. *)
Theorem cloudshell_policy_without_mapping
    (W : World) (args : Args) w d ty name proj policy :
  sink_reload W (arg_sink_name args) (arg_project_id args) = Ok (w, d) ->
  Cloudshell.get_destination_info d = Ok (ty, name, proj) ->
  (forall attrs,
      getattr_default policy "bindings" policy = PyObject attrs ->
      exists msg, Cloudshell.audit_policy policy w ty = Raise (AttributeError msg))
  /\ forall msg,
      Cloudshell.audit_policy policy w ty = Raise (AttributeError msg) ->
      let failure := Raise (SystemExit ("Unexpected error: " ++ msg)) in
      (startswith ty Cloudshell.DestinationType.BIGQUERY = true ->
       dataset_get_iam_policy W name = Ok policy ->
       run (Cloudshell.main W args)
       = (failure, (prelude args w d ++ [DatasetGetIamPolicy name])%list))
      /\ (startswith ty Cloudshell.DestinationType.STORAGE = true ->
          bucket_get_iam_policy W name = Ok policy ->
          run (Cloudshell.main W args)
          = (failure, (prelude args w d ++ [BucketGetIamPolicy name])%list))
      /\ (startswith ty Cloudshell.DestinationType.PUBSUB = true ->
          topic_get_iam_policy W (py_or proj (arg_project_id args)) name = Ok policy ->
          run (Cloudshell.main W args)
          = (failure,
             (prelude args w d
              ++ [TopicGetIamPolicy (py_or proj (arg_project_id args)) name])%list)).
Proof.
  intros Hsink Hparse. split.
  - intros attrs Hb. rewrite cloudshell_audit_policy_items. unfold value_items.
    rewrite Hb. simpl. eexists. reflexivity.
  - intros msg Haudit failure.
    destruct (cloudshell_select_policy_cases W ty name
                (py_or proj (arg_project_id args))) as [Hbq [Hst [Hps _]]].
    unfold run. rewrite cloudshell_main_of_body.
    rewrite (cloudshell_run_parsed W args w d ty name proj Hsink Hparse).
    split; [|split]; intros Hpre Hok.
    + rewrite (Hbq Hpre). unfold bind, lift.
      rewrite cloudshell_get_bigquery_policy_result, Hok, Haudit. reflexivity.
    + rewrite (Hst Hpre). unfold bind, lift.
      rewrite cloudshell_get_storage_policy_result, Hok, Haudit. reflexivity.
    + rewrite (Hps Hpre). unfold bind, lift.
      rewrite cloudshell_get_pubsub_policy_result, Hok, Haudit. reflexivity.
Qed.

Lemma cloudshell_policy_without_mapping_witness :
  run (Cloudshell.main
         (constant_world None (Ok ("writerIdentity", "storage.googleapis.com/b1"))
            (Ok (PyObject [("etag", PyObject [])])) (Ok (PyDict [])) (Ok (PyDict [])))
         scenario_args)
  = (Raise (SystemExit "Unexpected error: object has no attribute 'items'"),
     (prelude scenario_args "writerIdentity" "storage.googleapis.com/b1"
      ++ [BucketGetIamPolicy "b1"])%list).
Proof.
  apply (proj2 (cloudshell_policy_without_mapping
                  (constant_world None
                     (Ok ("writerIdentity", "storage.googleapis.com/b1"))
                     (Ok (PyObject [("etag", PyObject [])]))
                     (Ok (PyDict [])) (Ok (PyDict [])))
                  scenario_args "writerIdentity"
                  "storage.googleapis.com/b1"
                  "storage.googleapis.com" "b1" None
                  (PyObject [("etag", PyObject [])])
                  eq_refl eq_refl)
               "object has no attribute 'items'" eq_refl);
    reflexivity.
Defined.
